(** * gin-fleamarket: the service and repository layers, verified

    A shallow embedding of the Go code of the flea-market backend: the
    models ([Item], [User]), the transfer objects ([CreateItemInput],
    [UpdateItemInput]), the GORM item repository ([FindById], [Create],
    [Update], [FindAll], [FindWithPagination]) with the [BeforeUpdate]
    hook of [Item], and the item service ([Create], [calculatePrice],
    [PurchaseItem], [Update], [GetStatistics]).

    The database is explicit state.  A service method is a tree of
    repository calls ([prog]); [run] executes one method alone, [sched]
    interleaves several methods call by call.

    GORM and PostgreSQL lie outside the repository and are taken as
    documented: [First] and [Find] read the rows, [Create] fills a zero
    key from the serial counter, [Model(&x).Updates(m)] runs the model's
    [BeforeUpdate] hook and then writes the columns of [m] in the rows
    whose key is that of [x], [RowsAffected] counts the rows matched, and
    any statement may fail with an error of the storage. *)

From stdpp Require Import base option strings list sorting gmap.
From Stdlib Require Import ZArith Lia.

Open Scope Z_scope.

(** ** Go scalars *)

Module GoInt.

(** [uint] and [int] are 64 bits wide on the platforms the server runs
    on; arithmetic wraps around silently. *)
Definition bits : Z := 64.

Definition uint_mod : Z := 2 ^ bits.

Definition uint_wrap (x : Z) : Z := x mod uint_mod.

Definition is_uint (x : Z) : Prop := 0 <= x < uint_mod.

Definition max_int : Z := 2 ^ (bits - 1) - 1.

Definition min_int : Z := - 2 ^ (bits - 1).

Definition int_wrap (x : Z) : Z :=
  (x + 2 ^ (bits - 1)) mod uint_mod - 2 ^ (bits - 1).

Definition is_int (x : Z) : Prop := min_int <= x <= max_int.

(** [a / b] on unsigned integers; a zero divisor is a run-time panic
    ([integer divide by zero]). *)
Definition udiv (a b : Z) : option Z :=
  if b =? 0 then None else Some (a / b).

End GoInt.

(** ** float64, as far as [calculatePrice] needs it

    A finite non-negative binary64 value is a pair [(m, e)] standing for
    [m * 2^e].  Every operation rounds its exact result to 53 significant
    bits, ties to even.  The values met here stay far from the exponent
    limits, so neither overflow nor subnormals are modelled. *)

Module Float64.

Definition prec : Z := 53.

Definition round (m e : Z) : Z * Z :=
  let d := Z.log2 m + 1 - prec in
  if d <=? 0 then (m, e)
  else
    let q := Z.shiftr m d in
    let r := Z.land m (Z.ones d) in
    let half := Z.shiftl 1 (d - 1) in
    let q' := if r <? half then q
              else if half <? r then q + 1
              else if Z.even q then q else q + 1 in
    (q', e + d).

(** [float64(n)] for an unsigned integer [n]. *)
Definition of_uint (n : Z) : Z * Z := round n 0.

Definition mul (x y : Z * Z) : Z * Z :=
  round (x.1 * y.1) (x.2 + y.2).

(** [uint(f)]: the fraction is discarded.  Go leaves the conversion of a
    value that does not fit implementation-dependent; here it wraps. *)
Definition to_uint (x : Z * Z) : Z :=
  GoInt.uint_wrap
    (if 0 <=? x.2 then Z.shiftl x.1 x.2 else Z.shiftr x.1 (- x.2)).

End Float64.

(** ** Models *)

(** [models.Item].  The timestamps of [gorm.Model] and the preloaded
    relations ([User], [Category], [Images]) play no part in the service
    and are left out. *)
Record Item := mkItem {
  ID : Z;
  Name : string;
  Price : Z;
  Description : string;
  SoldOut : bool;
  UserId : Z;
  CategoryId : Z
}.

(** [models.User], reduced to its key and the balance. *)
Record User := mkUser {
  UID : Z;
  Balance : Z
}.

Definition set_Name (s : string) (i : Item) : Item :=
  mkItem (ID i) s (Price i) (Description i) (SoldOut i) (UserId i) (CategoryId i).

Definition set_Price (p : Z) (i : Item) : Item :=
  mkItem (ID i) (Name i) p (Description i) (SoldOut i) (UserId i) (CategoryId i).

Definition set_Description (s : string) (i : Item) : Item :=
  mkItem (ID i) (Name i) (Price i) s (SoldOut i) (UserId i) (CategoryId i).

Definition set_SoldOut (b : bool) (i : Item) : Item :=
  mkItem (ID i) (Name i) (Price i) (Description i) b (UserId i) (CategoryId i).

Definition set_ID (n : Z) (i : Item) : Item :=
  mkItem n (Name i) (Price i) (Description i) (SoldOut i) (UserId i) (CategoryId i).

Definition set_Balance (b : Z) (u : User) : User := mkUser (UID u) b.

(** The zero value of [models.Item] ([var oldItem Item]). *)
Definition zeroItem : Item := mkItem 0 "" 0 "" false 0 0.

(** [func (i *Item) IsPurchasable() bool] *)
Definition IsPurchasable (i : Item) : bool :=
  negb (SoldOut i) && (0 <? Price i).

(** ** Transfer objects *)

Record CreateItemInput := mkCreateItemInput {
  ciName : string;
  ciPrice : Z;
  ciDescription : string
}.

(** A pointer field is [None] when nil. *)
Record UpdateItemInput := mkUpdateItemInput {
  uiName : option string;
  uiPrice : option Z;
  uiDescription : option string;
  uiSoldOut : option bool
}.

Record ItemStatistics := mkItemStatistics {
  TotalItems : Z;
  SoldItems : Z;
  AveragePrice : Z
}.

(** The [binding] tags of [CreateItemInput]: [required,min=2] on the name,
    [required,min=1,max=999999] on the price. *)
Definition valid_CreateItemInput (c : CreateItemInput) : Prop :=
  (2 <= String.length (ciName c))%nat /\ 1 <= ciPrice c <= 999999.

(** ** Errors *)

(** One constructor per error value the code builds. *)
Inductive error :=
  | ErrItemNotFound          (* errors.New("Item not found") *)
  | ErrUserNotFound          (* the user repository's counterpart *)
  | ErrSoldOut               (* PurchaseItem: the item is sold out *)
  | ErrInsufficientBalance   (* PurchaseItem: the balance is too low *)
  | ErrSoldPriceChange       (* BeforeUpdate: price of a sold item *)
  | ErrStorage.              (* any other result.Error of GORM *)

Inductive rule := AlreadySoldOut | InsufficientBalance | ImmutablePriceAfterSale.

Inductive kind :=
  | NotFound
  | BusinessRuleViolation (r : rule)
  | InfrastructureError.

(** The error taxonomy of the specification. *)
Definition kind_of (e : error) : kind :=
  match e with
  | ErrItemNotFound | ErrUserNotFound => NotFound
  | ErrSoldOut => BusinessRuleViolation AlreadySoldOut
  | ErrInsufficientBalance => BusinessRuleViolation InsufficientBalance
  | ErrSoldPriceChange => BusinessRuleViolation ImmutablePriceAfterSale
  | ErrStorage => InfrastructureError
  end.

(** A Go call returns a value, returns an error, or panics. *)
Inductive outcome (A : Type) :=
  | Ok (a : A)
  | Err (e : error)
  | Panic.

Arguments Ok {A} a.
Arguments Err {A} e.
Arguments Panic {A}.

(** ** The database *)

(** The [items] table in scan order, the serial counter of its primary
    key, the [users] table by primary key, and the storage failures still
    to come: every GORM statement takes the head of [faults] and fails
    when it is [true]; an empty list is a storage that never fails. *)
Record DB := mkDB {
  items : list Item;
  item_seq : Z;
  users : gmap Z User;
  faults : list bool
}.

Definition set_items (l : list Item) (db : DB) : DB :=
  mkDB l (item_seq db) (users db) (faults db).

Definition set_item_seq (n : Z) (db : DB) : DB :=
  mkDB (items db) n (users db) (faults db).

Definition set_users (m : gmap Z User) (db : DB) : DB :=
  mkDB (items db) (item_seq db) m (faults db).

Definition set_faults (f : list bool) (db : DB) : DB :=
  mkDB (items db) (item_seq db) (users db) f.

(** A GORM statement reaches the storage: does it fail? *)
Definition statement (db : DB) : bool * DB :=
  match faults db with
  | [] => (false, db)
  | b :: f => (b, set_faults f db)
  end.

(** [WHERE id = ? ORDER BY id LIMIT 1] *)
Definition find_item (id : Z) (l : list Item) : option Item :=
  List.find (fun i => ID i =? id) l.

(** [Offset(n)]: GORM emits the clause only for a positive [n]. *)
Definition gorm_Offset {A} (n : Z) (rows : list A) : list A :=
  if 0 <? n then drop (Z.to_nat n) rows else rows.

(** [Limit(n)]: a negative [n] cancels the clause. *)
Definition gorm_Limit {A} (n : Z) (rows : list A) : list A :=
  if 0 <=? n then take (Z.to_nat n) rows else rows.

(** ** The item model's hook *)

(** [func (i *Item) BeforeUpdate(tx *gorm.DB) error].  The error of
    [tx.First] is dropped: after a failed or empty query [oldItem] is still
    the zero value. *)
Definition BeforeUpdate (i : Item) (db : DB) : option error * DB :=
  let '(failed, db) := statement db in
  let oldItem :=
    if failed then zeroItem else default zeroItem (find_item (ID i) (items db)) in
  if SoldOut oldItem && negb (Price oldItem =? Price i)
  then (Some ErrSoldPriceChange, db)
  else (None, db).

(** [ORDER BY price ASC] *)
Definition price_asc (a b : Item) : Prop := Price a <= Price b.

#[global] Instance price_asc_dec : RelDecision price_asc.
Proof. intros a b. unfold price_asc. apply Z.le_dec. Defined.

(** ** The repositories *)

Module ItemRepository.

Definition FindAll (db : DB) : outcome (list Item) * DB :=
  let '(failed, db) := statement db in
  if failed then (Err ErrStorage, db) else (Ok (items db), db).

Definition FindById (itemId : Z) (db : DB) : outcome Item * DB :=
  let '(failed, db) := statement db in
  if failed then (Err ErrStorage, db)
  else match find_item itemId (items db) with
       | None => (Err ErrItemNotFound, db)
       | Some item => (Ok item, db)
       end.

(** A zero [ID] is filled from the serial counter; a key already in the
    table is refused by the primary-key constraint. *)
Definition Create (newItem : Item) (db : DB) : outcome Item * DB :=
  let '(failed, db) := statement db in
  if failed then (Err ErrStorage, db)
  else
    let '(newItem, db) :=
      if ID newItem =? 0
      then (set_ID (item_seq db + 1) newItem, set_item_seq (item_seq db + 1) db)
      else (newItem, db) in
    match find_item (ID newItem) (items db) with
    | Some _ => (Err ErrStorage, db)
    | None => (Ok newItem, set_items (items db ++ [newItem]) db)
    end.

(** The four columns named in the [Updates] map.  A row is rewritten
    where it stands; where the storage puts a row after an [UPDATE] is
    its own business, and no statement about a table that has been
    written depends on the place of a row. *)
Definition write_columns (updateItem row : Item) : Item :=
  if ID row =? ID updateItem
  then mkItem (ID row) (Name updateItem) (Price updateItem)
              (Description updateItem) (SoldOut updateItem)
              (UserId row) (CategoryId row)
  else row.

(** The number of rows with this key. *)
Definition RowsAffected (id : Z) (l : list Item) : Z :=
  Z.of_nat (length (filter (fun i => ID i = id) l)).

(** [updateItem] carries the key of the row to write.  The service only
    passes items it has loaded with [FindById], whose key is that of a
    stored row.  For a key of zero GORM builds no [WHERE] and refuses the
    statement; that case is not modelled, and the statements about
    [Update] with a key that is not stored are made for keys other than
    zero. *)
Definition Update (updateItem : Item) (db : DB) : outcome Item * DB :=
  match BeforeUpdate updateItem db with
  | (Some e, db) => (Err e, db)
  | (None, db) =>
      let '(failed, db) := statement db in
      if failed then (Err ErrStorage, db)
      else if RowsAffected (ID updateItem) (items db) =? 0
           then (Err ErrItemNotFound, db)
           else (Ok updateItem,
                 set_items (map (write_columns updateItem) (items db)) db)
  end.

(** The error of [Count] is dropped: after a failed count [total] is still
    zero. *)
Definition FindWithPagination (page pageSize : Z) (db : DB)
  : outcome (list Item * Z) * DB :=
  let '(failed, db) := statement db in
  let total := if failed then 0 else Z.of_nat (length (items db)) in
  let offset := GoInt.int_wrap (GoInt.int_wrap (page - 1) * pageSize) in
  let '(failed, db) := statement db in
  if failed then (Err ErrStorage, db)
  else (Ok (gorm_Limit pageSize (gorm_Offset offset (items db)), total), db).

(** [gorm.Model] makes the deletion a soft one: the row is marked and no
    later query sees it.  [items] holds the rows that are not marked, so
    the deleted rows leave it. *)
Definition Delete (itemId : Z) (db : DB) : outcome unit * DB :=
  let '(failed, db) := statement db in
  if failed then (Err ErrStorage, db)
  else if RowsAffected itemId (items db) =? 0
       then (Err ErrItemNotFound, db)
       else (Ok tt, set_items (filter (fun i => ID i <> itemId) (items db)) db).

(** [Where("price >= ? AND price <= ?").Order("price ASC")].  The order
    of rows with the same price is left to the storage; here they keep
    the order a merge sort gives them. *)
Definition FindByPriceRange (minPrice maxPrice : Z) (db : DB)
  : outcome (list Item) * DB :=
  let '(failed, db) := statement db in
  if failed then (Err ErrStorage, db)
  else (Ok (merge_sort price_asc
              (filter (fun i => minPrice <= Price i /\ Price i <= maxPrice)
                      (items db))),
        db).

End ItemRepository.

(** The repository kept in memory: the state is the slice [r.items]; the
    mutex makes every method one indivisible action. *)
Module ItemMemoryRepository.

Definition FindAll (items : list Item) : outcome (list Item) * list Item :=
  (Ok items, items).

Definition Create (newItem : Item) (items : list Item)
  : outcome Item * list Item :=
  let newItem :=
    set_ID (GoInt.uint_wrap (GoInt.int_wrap (Z.of_nat (length items) + 1)))
           newItem in
  (Ok newItem, items ++ [newItem]).

End ItemMemoryRepository.

Module UserRepository.

(** Modelled from the spec: the user repository ([IUserRepository]) is
    used by the service and defined nowhere; its two methods follow the
    symmetric contract of the item repository, [FindById] failing with
    the not-found error for an unknown id. *)
Definition FindById (userId : Z) (db : DB) : outcome User * DB :=
  let '(failed, db) := statement db in
  if failed then (Err ErrStorage, db)
  else match users db !! userId with
       | None => (Err ErrUserNotFound, db)
       | Some user => (Ok user, db)
       end.

(** Modelled from the spec: [Update] of the user repository, which
    persists the user under its id and fails with the not-found error
    when no row has that id. *)
Definition Update (updateUser : User) (db : DB) : outcome User * DB :=
  let '(failed, db) := statement db in
  if failed then (Err ErrStorage, db)
  else match users db !! UID updateUser with
       | None => (Err ErrUserNotFound, db)
       | Some _ =>
           (Ok updateUser, set_users (<[UID updateUser := updateUser]> (users db)) db)
       end.

End UserRepository.

(** ** Service methods as trees of repository calls *)

(** A method body: it returns, returns an error, panics, or calls a method
    of [IItemRepository] ([s.repository]) or [IUserRepository]
    ([s.userRepo]) and goes on with the value the call returned.  A call
    that returns an error ends the method with that error, which is what
    every [if err != nil { return err }] of the service does. *)
Inductive prog (R : Type) : Type :=
  | Return (r : R)
  | Raise (e : error)
  | Crash
  | repository_FindAll (k : list Item -> prog R)
  | repository_FindById (itemId : Z) (k : Item -> prog R)
  | repository_Create (newItem : Item) (k : Item -> prog R)
  | repository_Update (updateItem : Item) (k : Item -> prog R)
  | userRepo_FindById (userId : Z) (k : User -> prog R)
  | userRepo_Update (updateUser : User) (k : User -> prog R).

Arguments Return {R} r.
Arguments Raise {R} e.
Arguments Crash {R}.
Arguments repository_FindAll {R} k.
Arguments repository_FindById {R} itemId k.
Arguments repository_Create {R} newItem k.
Arguments repository_Update {R} updateItem k.
Arguments userRepo_FindById {R} userId k.
Arguments userRepo_Update {R} updateUser k.

Notation "x <- c ;; k" := (c (fun x => k))
  (at level 200, c at level 99, right associativity, only parsing).

(** What a finished method handed back, if it has finished. *)
Definition result_of {R} (p : prog R) : option (outcome R) :=
  match p with
  | Return r => Some (Ok r)
  | Raise e => Some (Err e)
  | Crash => Some Panic
  | _ => None
  end.

(** The method goes on after a repository call. *)
Definition resume {A R} (k : A -> prog R) (r : outcome A * DB) : prog R * DB :=
  match r with
  | (Ok a, db) => (k a, db)
  | (Err e, db) => (Raise e, db)
  | (Panic, db) => (Crash, db)
  end.

(** One repository call of the method, executed against the GORM item
    repository and the user repository. *)
Definition step {R} (p : prog R) (db : DB) : prog R * DB :=
  match p with
  | Return _ | Raise _ | Crash => (p, db)
  | repository_FindAll k => resume k (ItemRepository.FindAll db)
  | repository_FindById itemId k => resume k (ItemRepository.FindById itemId db)
  | repository_Create newItem k => resume k (ItemRepository.Create newItem db)
  | repository_Update updateItem k => resume k (ItemRepository.Update updateItem db)
  | userRepo_FindById userId k => resume k (UserRepository.FindById userId db)
  | userRepo_Update updateUser k => resume k (UserRepository.Update updateUser db)
  end.

(** [if err != nil { return err }], then the rest of the method. *)
Definition and_then {A R} (r : outcome A * DB) (f : A -> DB -> outcome R * DB)
  : outcome R * DB :=
  match r with
  | (Ok a, db) => f a db
  | (Err e, db) => (Err e, db)
  | (Panic, db) => (Panic, db)
  end.

(** The method executed alone, from its first call to its return. *)
Fixpoint run {R} (p : prog R) (db : DB) : outcome R * DB :=
  match p with
  | Return r => (Ok r, db)
  | Raise e => (Err e, db)
  | Crash => (Panic, db)
  | repository_FindAll k =>
      and_then (ItemRepository.FindAll db) (fun a => run (k a))
  | repository_FindById itemId k =>
      and_then (ItemRepository.FindById itemId db) (fun a => run (k a))
  | repository_Create newItem k =>
      and_then (ItemRepository.Create newItem db) (fun a => run (k a))
  | repository_Update updateItem k =>
      and_then (ItemRepository.Update updateItem db) (fun a => run (k a))
  | userRepo_FindById userId k =>
      and_then (UserRepository.FindById userId db) (fun a => run (k a))
  | userRepo_Update updateUser k =>
      and_then (UserRepository.Update updateUser db) (fun a => run (k a))
  end.

(** *** Concurrent requests

    Each request runs one method; the repository is the only shared
    state.  A schedule names, call by call, the request whose next
    repository call is executed.  A repository call is taken as one
    indivisible action: the interleavings of this model are among those
    of the real server, which may also interleave inside a call. *)
Definition fire {R} (st : list (prog R) * DB) (i : nat) : list (prog R) * DB :=
  match st.1 !! i with
  | None => st
  | Some p => let '(p', db) := step p st.2 in (<[i := p']> st.1, db)
  end.

Definition sched {R} (schedule : list nat) (st : list (prog R) * DB)
  : list (prog R) * DB :=
  foldl fire st schedule.

(** The same method with its value dropped, so that requests of
    different methods can share a schedule. *)
Fixpoint discard {R} (p : prog R) : prog unit :=
  match p with
  | Return _ => Return tt
  | Raise e => Raise e
  | Crash => Crash
  | repository_FindAll k => repository_FindAll (fun a => discard (k a))
  | repository_FindById itemId k =>
      repository_FindById itemId (fun a => discard (k a))
  | repository_Create newItem k =>
      repository_Create newItem (fun a => discard (k a))
  | repository_Update updateItem k =>
      repository_Update updateItem (fun a => discard (k a))
  | userRepo_FindById userId k =>
      userRepo_FindById userId (fun a => discard (k a))
  | userRepo_Update updateUser k =>
      userRepo_Update updateUser (fun a => discard (k a))
  end.

(** ** The item service *)

Module ItemService.

(** The untyped constant [1.10] as a float64: [0x1.199999999999ap+0]. *)
Definition taxRate : Z * Z := (4953959590107546, -52).

Definition calculatePrice (basePrice : Z) : Z :=
  Float64.to_uint (Float64.mul (Float64.of_uint basePrice) taxRate).

Definition Create (createItemInput : CreateItemInput) : prog Item :=
  let finalPrice := calculatePrice (ciPrice createItemInput) in
  let newItem :=
    mkItem 0 (ciName createItemInput) finalPrice
           (ciDescription createItemInput) false 0 0 in
  item <- repository_Create newItem ;;
  Return item.

Definition PurchaseItem (itemId userId : Z) : prog unit :=
  item <- repository_FindById itemId ;;
  if SoldOut item then Raise ErrSoldOut
  else
    user <- userRepo_FindById userId ;;
    if Balance user <? Price item then Raise ErrInsufficientBalance
    else
      let item := set_SoldOut true item in
      _ <- repository_Update item ;;
      let user :=
        set_Balance (GoInt.uint_wrap (Balance user - Price item)) user in
      _ <- userRepo_Update user ;;
      Return tt.

(** The three nil checks of [Update], applied to the loaded item. *)
Definition apply_fields (updateInput : UpdateItemInput) (targetItem : Item) : Item :=
  let targetItem :=
    match uiName updateInput with
    | Some name => set_Name name targetItem
    | None => targetItem
    end in
  let targetItem :=
    match uiPrice updateInput with
    | Some price => set_Price (calculatePrice price) targetItem
    | None => targetItem
    end in
  let targetItem :=
    match uiDescription updateInput with
    | Some description => set_Description description targetItem
    | None => targetItem
    end in
  targetItem.

Definition Update (itemId : Z) (updateInput : UpdateItemInput) : prog Item :=
  targetItem <- repository_FindById itemId ;;
  let targetItem := apply_fields updateInput targetItem in
  item <- repository_Update targetItem ;;
  Return item.

(** The loop of [GetStatistics]: [totalPrice] is a [uint], [soldCount]
    an [int] that never exceeds the length of the slice. *)
Definition accumulate (acc : Z * Z) (item : Item) : Z * Z :=
  (GoInt.uint_wrap (acc.1 + Price item),
   if SoldOut item then acc.2 + 1 else acc.2).

Definition GetStatistics : prog ItemStatistics :=
  items <- repository_FindAll ;;
  let '(totalPrice, soldCount) := foldl accumulate (0, 0) items in
  let len := Z.of_nat (length items) in
  match GoInt.udiv totalPrice (GoInt.uint_wrap len) with
  | None => Crash
  | Some avgPrice => Return (mkItemStatistics len soldCount avgPrice)
  end.

End ItemService.

(** ** Sequences of core operations *)

Inductive operation :=
  | createItem (input : CreateItemInput)
  | updateItem (itemId : Z) (input : UpdateItemInput)
  | purchaseItem (itemId userId : Z).

Definition perform (db : DB) (o : operation) : DB :=
  match o with
  | createItem input => (run (ItemService.Create input) db).2
  | updateItem itemId input => (run (ItemService.Update itemId input) db).2
  | purchaseItem itemId userId => (run (ItemService.PurchaseItem itemId userId) db).2
  end.

Definition perform_all (ops : list operation) (db : DB) : DB :=
  foldl perform db ops.

(** ** A small shop

    One unsold item priced 500 and two users with a balance of 500 each,
    on a storage that does not fail. *)

Definition item500 : Item := mkItem 1 "A" 500 "" false 1 1.

Definition alice : User := mkUser 1 500.

Definition bob : User := mkUser 2 500.

Definition shop : DB := mkDB [item500] 1 (<[1 := alice]> (<[2 := bob]> ∅)) [].

(** The same shop on a storage whose fifth statement fails. *)
Definition failing_shop : DB := set_faults [false; false; false; false; true] shop.

(** The input of the service's own test: a price of 1000. *)
Definition test_input : CreateItemInput :=
  mkCreateItemInput "test item" 1000 "an item for the test".

(** An item named A with a price of 100, not sold and sold, and a sold
    item whose price is the tax-inclusive price of 100. *)
Definition itemA : Item := mkItem 1 "A" 100 "" false 1 1.

Definition soldA : Item := mkItem 1 "A" 100 "" true 1 1.

Definition sold110 : Item := mkItem 1 "A" 110 "" true 1 1.

Definition table (i : Item) : DB := mkDB [i] 1 ∅ [].

(** A table of 25 items, numbered from 1. *)
Definition shelf : DB :=
  mkDB ((fun n => mkItem (Z.of_nat n) "A" 100 "" false 1 1) <$> seq 1 25) 25 ∅ [].

(** Update inputs with a single field present. *)
Definition price_only (p : Z) : UpdateItemInput :=
  mkUpdateItemInput None (Some p) None None.

Definition description_only (d : string) : UpdateItemInput :=
  mkUpdateItemInput None None (Some d) None.

(** ** Vocabulary of the statements *)

(** The call returned an error of kind [k] and left the database [db]. *)
Definition fails_with {A} (r : outcome A * DB) (k : kind) (db : DB) : Prop :=
  exists e, r = (Err e, db) /\ kind_of e = k.

(** The rows hold values of their Go types, and a user is stored under
    its primary key. *)
Definition well_typed (db : DB) : Prop :=
  Forall (fun i => GoInt.is_uint (Price i)) (items db) /\
  map_Forall (fun k u => UID u = k /\ GoInt.is_uint (Balance u)) (users db).

(** An item with this id is stored, and it is sold. *)
Definition stored_sold (db : DB) (id : Z) : Prop :=
  exists i, find_item id (items db) = Some i /\ SoldOut i = true.


(** The slice of the memory repository holds the ids 1, 2, ... in this
    order. *)
Definition numbered (l : list Item) : Prop :=
  ID <$> l = Z.of_nat <$> seq 1 (length l).

(** The aggregate the statistics are meant to report, computed over the
    rows: the sum of the prices and the number of sold rows. *)
Definition total_price (l : list Item) : Z :=
  foldr (fun i t => Price i + t) 0 l.

Definition sold_count (l : list Item) : Z :=
  Z.of_nat (length (filter (fun i => SoldOut i = true) l)).

(** * Proofs *)

Section float_facts.

Import Float64.

(** Rounding keeps a value that already fits in 53 bits. *)
Lemma round_small m e : 0 <= m < 2 ^ 53 -> round m e = (m, e).
Proof.
  intros Hm. unfold round, prec.
  destruct (Z.eq_dec m 0) as [->|Hne]; [reflexivity|].
  assert (Z.log2 m < 53) by (apply Z.log2_lt_pow2; lia).
  destruct (Z.leb_spec (Z.log2 m + 1 - 53) 0); [reflexivity | lia].
Qed.

(** Rounding a longer value drops [d] low bits and moves to one of the
    two neighbours. *)
Lemma round_large m e :
  2 ^ 53 <= m ->
  exists d q, 0 < d /\ 2 ^ (d + 52) <= m < 2 ^ (d + 53) /\
    round m e = (q, e + d) /\ m / 2 ^ d <= q <= m / 2 ^ d + 1.
Proof.
  intros Hm. unfold round, prec.
  assert (0 < m) by lia.
  assert (53 <= Z.log2 m) by (apply Z.log2_le_pow2; lia).
  pose proof (Z.log2_spec m ltac:(lia)) as Hs.
  set (d := Z.log2 m + 1 - 53) in *.
  exists d.
  destruct (Z.leb_spec d 0); [lia|].
  rewrite Z.shiftr_div_pow2 by lia.
  replace (d + 52) with (Z.log2 m) by lia.
  replace (d + 53) with (Z.succ (Z.log2 m)) by lia.
  eexists; split; [lia|]. split; [exact Hs|]. split; [reflexivity|].
  repeat match goal with |- context [if ?b then _ else _] => destruct b end; lia.
Qed.

(** The tax-inclusive price is the price times 11/10, fraction dropped. *)
Lemma calculatePrice_floor p :
  0 <= p < 2 ^ 32 -> ItemService.calculatePrice p = 11 * p / 10.
Proof.
  intros Hp. unfold ItemService.calculatePrice, of_uint, mul, ItemService.taxRate.
  rewrite (round_small p 0) by lia. cbn [fst snd].
  set (m := 4953959590107546). set (k := 11 * p / 10).
  assert (Hk : 10 * k <= 11 * p < 10 * k + 10).
  { subst k. pose proof (Z.div_mod (11 * p) 10 ltac:(lia)).
    pose proof (Z.mod_pos_bound (11 * p) 10 ltac:(lia)). lia. }
  assert (Hwrap : GoInt.uint_wrap k = k).
  { unfold GoInt.uint_wrap, GoInt.uint_mod, GoInt.bits.
    apply Z.mod_small. lia. }
  destruct (Z.lt_ge_cases (p * m) (2 ^ 53)) as [Hlt|Hge].
  - assert (Hp01 : p = 0 \/ p = 1) by (subst m; lia).
    destruct Hp01 as [-> | ->]; reflexivity.
  - destruct (round_large (p * m) (0 + -52) Hge)
      as (d & q & Hd & [Hlo Hhi] & -> & Hq).
    assert (Hd33 : d + 52 < 85).
    { apply (Z.pow_lt_mono_r_iff 2); [lia | lia |].
      eapply Z.le_lt_trans; [exact Hlo|]. subst m. lia. }
    unfold to_uint. cbn [fst snd].
    destruct (Z.leb_spec 0 (0 + -52 + d)); [lia|].
    rewrite Z.shiftr_div_pow2 by lia.
    replace (- (0 + -52 + d)) with (52 - d) by lia.
    set (T := 4503599627370496).
    assert (HT : 2 ^ d * 2 ^ (52 - d) = T).
    { rewrite <- Z.pow_add_r by lia. replace (d + (52 - d)) with 52 by lia.
      reflexivity. }
    assert (HDT : 2 ^ d * T <= p * m).
    { replace (2 ^ d * T) with (2 ^ (d + 52)); [exact Hlo|].
      rewrite Z.pow_add_r by lia. reflexivity. }
    assert (HD : 0 < 2 ^ d) by (apply Z.pow_pos_nonneg; lia).
    assert (HE : 0 < 2 ^ (52 - d)) by (apply Z.pow_pos_nonneg; lia).
    set (D := 2 ^ d) in *. set (E := 2 ^ (52 - d)) in *.
    assert (Hqk : q / E = k); [|rewrite Hqk; exact Hwrap].
    assert (Hlow : k * E <= p * m / D).
    { apply Z.div_le_lower_bound; [lia|].
      replace (D * (k * E)) with (k * (D * E)) by ring. rewrite HT.
      subst m T. lia. }
    assert (Hup : p * m / D < (k + 1) * E - 1).
    { apply Z.div_lt_upper_bound; [lia|].
      replace (D * ((k + 1) * E - 1)) with ((k + 1) * (D * E) - D) by ring.
      rewrite HT. subst m T. lia. }
    symmetry. apply (Z.div_unique_pos q E k (q - k * E)); lia.
Qed.

End float_facts.

(** ** The tables *)

Lemma statement_healthy db : faults db = [] -> statement db = (false, db).
Proof. unfold statement. now intros ->. Qed.

Lemma statement_tables db :
  items (statement db).2 = items db /\ users (statement db).2 = users db
  /\ item_seq (statement db).2 = item_seq db.
Proof. unfold statement. destruct (faults db); auto. Qed.

Lemma find_item_ID id l i : find_item id l = Some i -> ID i = id.
Proof.
  unfold find_item. intros H. apply find_some in H as [_ H]. lia.
Qed.

Lemma find_item_app id l l' :
  find_item id (l ++ l') =
  match find_item id l with Some i => Some i | None => find_item id l' end.
Proof.
  unfold find_item. induction l as [|x l IH]; cbn; [reflexivity|].
  destruct (ID x =? id); auto.
Qed.

Lemma write_columns_ID u row : ID (ItemRepository.write_columns u row) = ID row.
Proof. unfold ItemRepository.write_columns. now destruct (ID row =? ID u). Qed.

(** [UPDATE] rewrites rows in place and never changes a key. *)
Lemma find_item_write id u l :
  find_item id (map (ItemRepository.write_columns u) l) =
  ItemRepository.write_columns u <$> find_item id l.
Proof.
  unfold find_item. induction l as [|x l IH]; cbn; [reflexivity|].
  rewrite write_columns_ID. destruct (ID x =? id); auto.
Qed.

Lemma write_columns_other u row :
  ID row <> ID u -> ItemRepository.write_columns u row = row.
Proof.
  unfold ItemRepository.write_columns. intros H.
  destruct (Z.eqb_spec (ID row) (ID u)); [contradiction | reflexivity].
Qed.

(** A row loaded by its key and written back keeps its foreign keys. *)
Lemma write_columns_same u row :
  ID u = ID row -> UserId u = UserId row -> CategoryId u = CategoryId row ->
  ItemRepository.write_columns u row = u.
Proof.
  unfold ItemRepository.write_columns. intros H1 H2 H3.
  rewrite <- H1, Z.eqb_refl, <- H2, <- H3. now destruct u.
Qed.

Lemma RowsAffected_found id l i :
  find_item id l = Some i -> (ItemRepository.RowsAffected id l =? 0) = false.
Proof.
  unfold find_item, ItemRepository.RowsAffected. intros H.
  apply find_some in H as [Hin Hid]. apply Z.eqb_eq in Hid.
  apply Z.eqb_neq. apply list_elem_of_In in Hin.
  assert (Hf : i ∈ filter (fun i => ID i = id) l) by (apply list_elem_of_filter; auto).
  destruct (filter _ l); [inversion Hf | cbn; lia].
Qed.

Lemma RowsAffected_missing id l :
  find_item id l = None -> (ItemRepository.RowsAffected id l =? 0) = true.
Proof.
  unfold find_item, ItemRepository.RowsAffected. intros H.
  apply Z.eqb_eq.
  induction l as [|x l IH]; [reflexivity|].
  cbn in H. destruct (Z.eqb_spec (ID x) id) as [Heq|Hne]; [discriminate|].
  rewrite filter_cons_False by assumption. auto.
Qed.

(** ** The repositories on a storage that does not fail *)

Section healthy.

Variable db : DB.
Hypothesis Hhealthy : faults db = [].

Lemma FindAll_healthy : ItemRepository.FindAll db = (Ok (items db), db).
Proof. unfold ItemRepository.FindAll. now rewrite statement_healthy. Qed.

Lemma FindById_healthy itemId :
  ItemRepository.FindById itemId db =
  match find_item itemId (items db) with
  | None => (Err ErrItemNotFound, db)
  | Some item => (Ok item, db)
  end.
Proof. unfold ItemRepository.FindById. now rewrite statement_healthy. Qed.

Lemma BeforeUpdate_healthy i :
  BeforeUpdate i db =
  (let oldItem := default zeroItem (find_item (ID i) (items db)) in
   if SoldOut oldItem && negb (Price oldItem =? Price i)
   then Some ErrSoldPriceChange else None, db).
Proof.
  unfold BeforeUpdate. rewrite statement_healthy by assumption. cbn zeta.
  now destruct (SoldOut _ && _).
Qed.

(** [Update] of a row that is in the table and passes the hook. *)
Lemma Update_healthy updateItem row :
  find_item (ID updateItem) (items db) = Some row ->
  SoldOut row && negb (Price row =? Price updateItem) = false ->
  ItemRepository.Update updateItem db =
  (Ok updateItem,
   set_items (map (ItemRepository.write_columns updateItem) (items db)) db).
Proof.
  intros Hrow Hhook. unfold ItemRepository.Update.
  rewrite BeforeUpdate_healthy, Hrow. cbn. rewrite Hhook.
  rewrite statement_healthy by assumption.
  now rewrite (RowsAffected_found _ _ _ Hrow).
Qed.

(** [Update] of a sold row with another price is stopped by the hook. *)
Lemma Update_rejected updateItem row :
  find_item (ID updateItem) (items db) = Some row ->
  SoldOut row && negb (Price row =? Price updateItem) = true ->
  ItemRepository.Update updateItem db = (Err ErrSoldPriceChange, db).
Proof.
  intros Hrow Hhook. unfold ItemRepository.Update.
  rewrite BeforeUpdate_healthy, Hrow. cbn. now rewrite Hhook.
Qed.

Lemma UserFindById_healthy userId :
  UserRepository.FindById userId db =
  match users db !! userId with
  | None => (Err ErrUserNotFound, db)
  | Some user => (Ok user, db)
  end.
Proof. unfold UserRepository.FindById. now rewrite statement_healthy. Qed.

Lemma UserUpdate_healthy u old :
  users db !! UID u = Some old ->
  UserRepository.Update u db =
  (Ok u, set_users (<[UID u := u]> (users db)) db).
Proof.
  intros Hold. unfold UserRepository.Update.
  rewrite statement_healthy by assumption. now rewrite Hold.
Qed.

End healthy.

(** ** PurchaseItem *)

(** C1.  On a storage that does not fail, [PurchaseItem itemId userId]:
    returns the not-found error when no item has that id; is refused as
    already sold out when the stored item is sold; returns the not-found
    error when the buyer does not exist; is refused for insufficient
    balance when the balance is below the price; and otherwise succeeds,
    after which the item is stored sold and the buyer's balance is the
    former balance minus the price, every other item and user being as
    before.  Every refusal leaves the whole database as it was. *)
Theorem PurchaseItem_rules db itemId userId :
  faults db = [] ->
  well_typed db ->
  match find_item itemId (items db) with
  | None =>
      fails_with (run (ItemService.PurchaseItem itemId userId) db) NotFound db
  | Some i =>
      if SoldOut i
      then fails_with (run (ItemService.PurchaseItem itemId userId) db)
                      (BusinessRuleViolation AlreadySoldOut) db
      else
        match users db !! userId with
        | None =>
            fails_with (run (ItemService.PurchaseItem itemId userId) db)
                       NotFound db
        | Some u =>
            if Balance u <? Price i
            then fails_with (run (ItemService.PurchaseItem itemId userId) db)
                            (BusinessRuleViolation InsufficientBalance) db
            else
              exists db',
                run (ItemService.PurchaseItem itemId userId) db = (Ok tt, db')
                /\ find_item itemId (items db') = Some (set_SoldOut true i)
                /\ users db' !! userId
                   = Some (set_Balance (Balance u - Price i) u)
                /\ (forall id, id <> itemId ->
                      find_item id (items db') = find_item id (items db))
                /\ (forall uid, uid <> userId ->
                      users db' !! uid = users db !! uid)
        end
  end.
Proof.
  intros Hh [Hprices Husers].
  unfold ItemService.PurchaseItem. cbn [run].
  rewrite FindById_healthy by assumption.
  destruct (find_item itemId (items db)) as [i|] eqn:Hi; cbn [and_then];
    [|now exists ErrItemNotFound].
  destruct (SoldOut i) eqn:Hsold; cbn [run]; [now exists ErrSoldOut|].
  rewrite UserFindById_healthy by assumption.
  destruct (users db !! userId) as [u|] eqn:Hu; cbn [and_then];
    [|now exists ErrUserNotFound].
  destruct (Z.ltb_spec (Balance u) (Price i)) as [Hlt|Hge]; cbn [run];
    [now exists ErrInsufficientBalance|].
  pose proof (find_item_ID _ _ _ Hi) as HID.
  destruct (Husers _ _ Hu) as [HUID Hbal].
  assert (Hprice : GoInt.is_uint (Price i)).
  { rewrite Forall_forall in Hprices. apply Hprices.
    apply list_elem_of_In. unfold find_item in Hi.
    now apply find_some in Hi as [? _]. }
  rewrite (Update_healthy db Hh (set_SoldOut true i) i);
    [| cbn; now rewrite HID | cbn; now rewrite Hsold].
  cbn [and_then run].
  set (db1 := set_items _ db).
  rewrite (UserUpdate_healthy db1 Hh _ u) by (cbn; now rewrite HUID).
  cbn [and_then run]. eexists. split; [reflexivity|].
  assert (Hwrap : GoInt.uint_wrap (Balance u - Price i) = Balance u - Price i).
  { unfold GoInt.uint_wrap, GoInt.is_uint in *. apply Z.mod_small. lia. }
  subst db1.
  cbn [items users set_items set_users UID set_Balance Balance set_SoldOut Price].
  rewrite Hwrap, HUID. repeat split.
  - rewrite find_item_write, Hi. cbn.
    now rewrite write_columns_same by (cbn; auto).
  - now rewrite lookup_insert_eq.
  - intros id Hne. rewrite find_item_write.
    destruct (find_item id (items db)) as [row|] eqn:Hrow; [|reflexivity].
    cbn. rewrite write_columns_other; [reflexivity|].
    cbn. apply find_item_ID in Hrow. lia.
  - intros uid Hne. now rewrite lookup_insert_ne.
Qed.

Ltac uint_literal :=
  unfold GoInt.is_uint, GoInt.uint_mod, GoInt.bits;
  cbn [Price Balance item500 alice bob]; lia.

Lemma shop_well_typed : well_typed shop.
Proof.
  split.
  - repeat constructor; uint_literal.
  - unfold shop; cbn [users].
    repeat apply map_Forall_insert_2; try apply map_Forall_empty;
      (split; [reflexivity | uint_literal]).
Defined.

Lemma PurchaseItem_rules_witness :
  faults shop = [] /\ well_typed shop /\
  exists db',
    run (ItemService.PurchaseItem 1 1) shop = (Ok tt, db')
    /\ find_item 1 (items db') = Some (set_SoldOut true item500)
    /\ users db' !! 1 = Some (set_Balance (500 - 500) alice)
    /\ (forall id, id <> 1 -> find_item id (items db') = find_item id (items shop))
    /\ (forall uid, uid <> 1 -> users db' !! uid = users shop !! uid).
Proof.
  split; [reflexivity|]. split; [exact shop_well_typed|].
  exact (PurchaseItem_rules shop 1 1 eq_refl shop_well_typed).
Defined.

Ltac tables := cbn [statement faults set_faults set_items set_users items item_seq users].

(** Whenever the storage fails on the balance write of a purchase that
    passed both checks, the item stays sold and no balance has changed. *)
Lemma PurchaseItem_no_compensation db itemId userId i u :
  faults db = [false; false; false; false; true] ->
  find_item itemId (items db) = Some i ->
  SoldOut i = false ->
  users db !! userId = Some u ->
  Price i <= Balance u ->
  exists db',
    run (ItemService.PurchaseItem itemId userId) db = (Err ErrStorage, db')
    /\ find_item itemId (items db') = Some (set_SoldOut true i)
    /\ users db' = users db.
Proof.
  intros Hf Hi Hsold Hu Hle.
  destruct db as [its sq us fl]. cbn [faults items users] in *. subst fl.
  pose proof (find_item_ID _ _ _ Hi) as HID.
  unfold ItemService.PurchaseItem. cbn [run].
  unfold ItemRepository.FindById at 1. tables.
  rewrite Hi. cbn [and_then]. rewrite Hsold. cbn [run].
  unfold UserRepository.FindById. tables.
  rewrite Hu. cbn [and_then].
  destruct (Z.ltb_spec (Balance u) (Price i)); [lia|]. cbn [run].
  unfold ItemRepository.Update, BeforeUpdate. tables.
  cbn [ID set_SoldOut Price]. rewrite HID, Hi. cbn [from_option id].
  rewrite Hsold. cbn [andb]. tables.
  rewrite (RowsAffected_found _ _ _ Hi). cbn [and_then run].
  unfold UserRepository.Update. tables.
  eexists. split; [reflexivity|]. tables. split; [|reflexivity].
  rewrite find_item_write, Hi. cbn.
  now rewrite write_columns_same by (cbn; auto).
Qed.

(** C2.  The sold-out write and the balance write are two separate
    repository calls and nothing undoes the first when the second fails:
    in the shop whose fifth statement (the balance write) fails,
    [PurchaseItem 1 1] returns the storage error, and afterwards the item
    is stored sold while the buyer still has the full balance. *)
Theorem PurchaseItem_partial_failure :
  (run (ItemService.PurchaseItem 1 1) failing_shop).1 = Err ErrStorage
  /\ kind_of ErrStorage = InfrastructureError
  /\ SoldOut <$> find_item 1 (items (run (ItemService.PurchaseItem 1 1) failing_shop).2)
     = Some true
  /\ Balance <$> users (run (ItemService.PurchaseItem 1 1) failing_shop).2 !! 1
     = Some 500.
Proof. vm_compute. repeat split. Qed.

(** ** Concurrent purchases *)

Lemma run_step {R} (p : prog R) db :
  run p db = run (step p db).1 (step p db).2.
Proof.
  destruct p; cbn [run step]; try reflexivity;
    match goal with
    | |- and_then ?c _ = _ => destruct c as [[a|e|] db']; reflexivity
    end.
Qed.

Lemma run_finished {R} (p : prog R) db o :
  result_of p = Some o -> run p db = (o, db).
Proof. destruct p; cbn; intros [= <-]; reflexivity. Qed.

Lemma fire_single {R} (p : prog R) db :
  fire ([p], db) 0 = ([(step p db).1], (step p db).2).
Proof. unfold fire. cbn. now destruct (step p db). Qed.

(** A request that is scheduled alone behaves as [run] says. *)
Lemma sched_alone {R} (p : prog R) db :
  exists n p',
    sched (replicate n 0%nat) ([p], db) = ([p'], (run p db).2)
    /\ result_of p' = Some (run p db).1.
Proof.
  revert db.
  induction p as [r|e| |k IH|itemId k IH|newItem k IH|updateItem k IH
                 |userId k IH|updateUser k IH]; intros db;
    try (exists 0%nat; eexists; split; reflexivity).
  all: cbn [run].
  all: match goal with
       | |- context [and_then ?c _] =>
           destruct c as [[a|e|] db'] eqn:Hc; cbn [and_then]
       end.
  all: try (destruct (IH a db') as (n & p' & Hs & Hr);
            exists (S n), p'; split; [|exact Hr];
            change (sched (replicate (S n) 0%nat) ?st)
              with (sched (replicate n 0%nat) (fire st 0));
            rewrite fire_single; cbn [step]; rewrite Hc; exact Hs).
  all: exists 1%nat; eexists;
       (split;
        [ change (sched (replicate 1 0%nat) ?st) with (fire st 0);
          rewrite fire_single; cbn [step]; rewrite Hc; reflexivity
        | reflexivity ]).
Qed.

Lemma fire_first {R} (p q : prog R) db :
  fire ([p; q], db) 0 = ([(step p db).1; q], (step p db).2).
Proof. unfold fire. cbn. now destruct (step p db). Qed.

Lemma fire_second {R} (p q : prog R) db :
  fire ([p; q], db) 1 = ([p; (step q db).1], (step q db).2).
Proof. unfold fire. cbn. now destruct (step q db). Qed.

(** The race, for any unsold item that two different buyers can afford. *)
Lemma PurchaseItem_double_sale db itemId buyer1 buyer2 i u1 u2 :
  faults db = [] ->
  well_typed db ->
  find_item itemId (items db) = Some i ->
  SoldOut i = false ->
  buyer1 <> buyer2 ->
  users db !! buyer1 = Some u1 ->
  users db !! buyer2 = Some u2 ->
  Price i <= Balance u1 ->
  Price i <= Balance u2 ->
  exists db',
    sched [0; 1; 0; 1; 0; 1; 0; 1]%nat
      ([ItemService.PurchaseItem itemId buyer1;
        ItemService.PurchaseItem itemId buyer2], db)
    = ([Return tt; Return tt], db')
    /\ users db' !! buyer1 = Some (set_Balance (Balance u1 - Price i) u1)
    /\ users db' !! buyer2 = Some (set_Balance (Balance u2 - Price i) u2).
Proof.
  intros Hh [Hp Hus] Hi Hsold Hne Hu1 Hu2 Hle1 Hle2.
  pose proof (find_item_ID _ _ _ Hi) as HID.
  destruct (Hus _ _ Hu1) as [HU1 Hb1]. destruct (Hus _ _ Hu2) as [HU2 Hb2].
  assert (Hprice : GoInt.is_uint (Price i)).
  { rewrite Forall_forall in Hp. apply Hp.
    apply list_elem_of_In. unfold find_item in Hi.
    now apply find_some in Hi as [? _]. }
  assert (Hw : forall u, GoInt.is_uint (Balance u) -> Price i <= Balance u ->
               GoInt.uint_wrap (Balance u - Price i) = Balance u - Price i).
  { intros u Hb Hle. unfold GoInt.uint_wrap, GoInt.is_uint in *.
    apply Z.mod_small. lia. }
  unfold sched, ItemService.PurchaseItem. cbn [foldl].
  (* both requests load the item *)
  rewrite fire_first. cbn [step].
  rewrite FindById_healthy, Hi by assumption. cbn [resume fst snd]. rewrite Hsold.
  rewrite fire_second. cbn [step].
  rewrite FindById_healthy, Hi by assumption. cbn [resume fst snd]. rewrite Hsold.
  (* both load their buyer *)
  rewrite fire_first. cbn [step].
  rewrite UserFindById_healthy, Hu1 by assumption. cbn [resume fst snd].
  destruct (Z.ltb_spec (Balance u1) (Price i)); [lia|].
  rewrite fire_second. cbn [step].
  rewrite UserFindById_healthy, Hu2 by assumption. cbn [resume fst snd].
  destruct (Z.ltb_spec (Balance u2) (Price i)); [lia|].
  (* both mark the item sold *)
  rewrite fire_first. cbn [step].
  rewrite (Update_healthy db Hh (set_SoldOut true i) i);
    [| cbn; now rewrite HID | cbn; now rewrite Hsold].
  cbn [resume fst snd].
  set (db1 := set_items _ db).
  rewrite fire_second. cbn [step].
  rewrite (Update_healthy db1 Hh (set_SoldOut true i) (set_SoldOut true i)).
  2: { subst db1. cbn [items set_items ID set_SoldOut].
       rewrite HID, find_item_write, Hi. cbn.
       now rewrite write_columns_same by (cbn; auto). }
  2: { cbn. now rewrite Z.eqb_refl. }
  cbn [resume fst snd].
  set (db2 := set_items _ db1).
  (* both debit their buyer *)
  cbn [Price set_SoldOut]. rewrite !Hw by assumption.
  rewrite fire_first. cbn [step].
  rewrite (UserUpdate_healthy db2 Hh _ u1) by (cbn; now rewrite HU1).
  cbn [resume fst snd UID set_Balance].
  set (db3 := set_users _ db2).
  rewrite fire_second. cbn [step].
  rewrite (UserUpdate_healthy db3 Hh _ u2).
  2: { subst db3 db2 db1. cbn [users set_users set_items UID set_Balance].
       rewrite HU1, HU2. now rewrite lookup_insert_ne. }
  cbn [resume fst snd UID set_Balance].
  eexists. split; [reflexivity|].
  subst db3 db2 db1. cbn [users set_users set_items]. rewrite HU1, HU2.
  split.
  - rewrite lookup_insert_ne by congruence. now rewrite lookup_insert_eq.
  - now rewrite lookup_insert_eq.
Qed.

(** C8.  Two requests buy item 1 at the same time, Alice and Bob, and
    their repository calls alternate: both read the item before either
    writes it.  Both calls succeed and both buyers are debited, so the
    item is sold twice. *)
Theorem PurchaseItem_race :
  result_of <$>
    (sched [0; 1; 0; 1; 0; 1; 0; 1]%nat
       ([ItemService.PurchaseItem 1 1; ItemService.PurchaseItem 1 2], shop)).1
  = [Some (Ok tt); Some (Ok tt)]
  /\ Balance <$>
       users (sched [0; 1; 0; 1; 0; 1; 0; 1]%nat
                ([ItemService.PurchaseItem 1 1; ItemService.PurchaseItem 1 2],
                 shop)).2 !! 1 = Some 0
  /\ Balance <$>
       users (sched [0; 1; 0; 1; 0; 1; 0; 1]%nat
                ([ItemService.PurchaseItem 1 1; ItemService.PurchaseItem 1 2],
                 shop)).2 !! 2 = Some 0.
Proof. vm_compute. repeat split. Qed.

(** ** Create *)

(** C3, as the code has it.  For a valid input [Create] stores, under a
    fresh key, an item that is not sold out, with the name and the
    description of the input and with the tax-inclusive price
    [calculatePrice price], which is [price * 11 / 10] with the fraction
    dropped; the price of the input itself is not what is stored. *)
Theorem Create_stores_taxed_price db input :
  faults db = [] ->
  valid_CreateItemInput input ->
  find_item (item_seq db + 1) (items db) = None ->
  exists item db',
    run (ItemService.Create input) db = (Ok item, db')
    /\ items db' = items db ++ [item]
    /\ find_item (ID item) (items db') = Some item
    /\ SoldOut item = false
    /\ Price item = ItemService.calculatePrice (ciPrice input)
    /\ Price item = 11 * ciPrice input / 10
    /\ Name item = ciName input
    /\ Description item = ciDescription input.
Proof.
  intros Hh [_ Hprice] Hfresh.
  unfold ItemService.Create. cbn [run]. unfold ItemRepository.Create.
  rewrite statement_healthy by assumption.
  cbn [ID Z.eqb set_ID set_item_seq items]. rewrite Hfresh. cbn [and_then run].
  do 2 eexists. split; [reflexivity|]. cbn [items set_items ID].
  repeat split.
  - cbn [ID set_ID]. rewrite find_item_app, Hfresh. unfold find_item.
    cbn [find ID]. now rewrite Z.eqb_refl.
  - cbn. apply calculatePrice_floor. lia.
Qed.

Lemma Create_stores_taxed_price_witness :
  faults shop = [] /\ valid_CreateItemInput test_input /\
  find_item (item_seq shop + 1) (items shop) = None /\
  exists item db',
    run (ItemService.Create test_input) shop = (Ok item, db')
    /\ items db' = items shop ++ [item]
    /\ find_item (ID item) (items db') = Some item
    /\ SoldOut item = false
    /\ Price item = ItemService.calculatePrice (ciPrice test_input)
    /\ Price item = 11 * ciPrice test_input / 10
    /\ Name item = ciName test_input
    /\ Description item = ciDescription test_input.
Proof.
  assert (Hv : valid_CreateItemInput test_input) by (split; cbn; lia).
  split; [reflexivity|]. split; [exact Hv|]. split; [reflexivity|].
  exact (Create_stores_taxed_price shop test_input eq_refl Hv eq_refl).
Defined.

(** C3, as the specification words it, fails: the valid input of the
    service's test asks for a price of 1000 and the stored item has a
    price of 1100. *)
Lemma Create_price_not_passed_through :
  valid_CreateItemInput test_input
  /\ (run (ItemService.Create test_input) shop).1
     = Ok (mkItem 2 "test item" 1100 "an item for the test" false 0 0)
  /\ find_item 2 (items (run (ItemService.Create test_input) shop).2)
     = Some (mkItem 2 "test item" 1100 "an item for the test" false 0 0)
  /\ 1100 <> ciPrice test_input.
Proof.
  split; [split; cbn; lia|]. split; [reflexivity|]. split; [reflexivity|].
  cbn. lia.
Qed.

(** ** GetStatistics *)

(** C4.  With no item in the table the division of [GetStatistics] has a
    zero divisor: the call does not return an average of 0, it panics. *)
Theorem GetStatistics_no_items seq us :
  run ItemService.GetStatistics (mkDB [] seq us []) = (Panic, mkDB [] seq us []).
Proof. reflexivity. Qed.

Lemma accumulate_fold l acc :
  GoInt.is_uint acc.1 ->
  foldl ItemService.accumulate acc l =
  (GoInt.uint_wrap (acc.1 + total_price l), acc.2 + sold_count l).
Proof.
  revert acc. unfold sold_count.
  induction l as [|i l IH]; intros [t s] Ht; cbn [foldl fst snd] in *.
  - cbn. f_equal; [|lia].
    unfold GoInt.uint_wrap, GoInt.is_uint in *. rewrite Z.add_0_r.
    symmetry. now apply Z.mod_small.
  - rewrite IH.
    + unfold ItemService.accumulate. cbn [fst snd total_price foldr].
      f_equal.
      * unfold GoInt.uint_wrap.
        rewrite Zplus_mod_idemp_l. f_equal. fold (total_price l). lia.
      * destruct (SoldOut i) eqn:Hs.
        -- rewrite filter_cons_True by assumption. cbn [length]. lia.
        -- rewrite filter_cons_False by congruence. lia.
    + unfold ItemService.accumulate, GoInt.uint_wrap, GoInt.is_uint. cbn [fst].
      apply Z.mod_pos_bound. reflexivity.
Qed.

(** With at least one item [GetStatistics] returns the number of items,
    the number of sold items and the [uint] sum of the prices divided by
    the number of items. *)
Lemma GetStatistics_some_items db :
  faults db = [] ->
  items db <> [] ->
  GoInt.is_uint (Z.of_nat (length (items db))) ->
  run ItemService.GetStatistics db =
  (Ok (mkItemStatistics (Z.of_nat (length (items db)))
         (sold_count (items db))
         (GoInt.uint_wrap (total_price (items db)) / Z.of_nat (length (items db)))),
   db).
Proof.
  intros Hh Hne Hlen. unfold ItemService.GetStatistics. cbn [run].
  rewrite FindAll_healthy by assumption. cbn [and_then].
  rewrite accumulate_fold by (cbn; unfold GoInt.is_uint; split; [lia|reflexivity]).
  cbn [fst snd]. rewrite !Z.add_0_l.
  assert (Hw : GoInt.uint_wrap (Z.of_nat (length (items db)))
               = Z.of_nat (length (items db))).
  { unfold GoInt.uint_wrap, GoInt.is_uint in *. now apply Z.mod_small. }
  rewrite Hw. unfold GoInt.udiv.
  destruct (Z.eqb_spec (Z.of_nat (length (items db))) 0) as [H0|H0].
  - destruct (items db); [contradiction | cbn in H0; lia].
  - reflexivity.
Qed.

(** ** Update *)

Lemma apply_fields_frame input i :
  ID (ItemService.apply_fields input i) = ID i
  /\ SoldOut (ItemService.apply_fields input i) = SoldOut i
  /\ UserId (ItemService.apply_fields input i) = UserId i
  /\ CategoryId (ItemService.apply_fields input i) = CategoryId i.
Proof.
  unfold ItemService.apply_fields.
  destruct (uiName input), (uiPrice input), (uiDescription input); cbn; auto.
Qed.

Lemma apply_fields_set input i :
  Name (ItemService.apply_fields input i) = default (Name i) (uiName input)
  /\ Price (ItemService.apply_fields input i)
     = default (Price i) (ItemService.calculatePrice <$> uiPrice input)
  /\ Description (ItemService.apply_fields input i)
     = default (Description i) (uiDescription input).
Proof.
  unfold ItemService.apply_fields.
  destruct (uiName input), (uiPrice input), (uiDescription input); cbn; auto.
Qed.

(** What [Update] does to a stored item on a storage that does not fail:
    the hook decides, and an accepted update rewrites the row. *)
Lemma Update_run db itemId input i :
  faults db = [] ->
  find_item itemId (items db) = Some i ->
  run (ItemService.Update itemId input) db =
  if SoldOut i && negb (Price i =? Price (ItemService.apply_fields input i))
  then (Err ErrSoldPriceChange, db)
  else (Ok (ItemService.apply_fields input i),
        set_items
          (map (ItemRepository.write_columns (ItemService.apply_fields input i))
               (items db)) db).
Proof.
  intros Hh Hi. unfold ItemService.Update. cbn [run].
  rewrite FindById_healthy, Hi by assumption. cbn [and_then run].
  destruct (apply_fields_frame input i) as (HID & _).
  pose proof (find_item_ID _ _ _ Hi) as Hid.
  destruct (SoldOut i && negb (Price i =? Price (ItemService.apply_fields input i)))
    eqn:Hhook.
  - rewrite (Update_rejected db Hh _ i); [reflexivity | | assumption].
    now rewrite HID, Hid.
  - rewrite (Update_healthy db Hh _ i); [reflexivity | | assumption].
    now rewrite HID, Hid.
Qed.

Lemma Update_stored db itemId input i :
  find_item itemId (items db) = Some i ->
  find_item itemId
    (map (ItemRepository.write_columns (ItemService.apply_fields input i))
         (items db))
  = Some (ItemService.apply_fields input i).
Proof.
  intros Hi. rewrite find_item_write, Hi. cbn.
  destruct (apply_fields_frame input i) as (H1 & _ & H3 & H4).
  now rewrite write_columns_same.
Qed.

(** C5, as the code has it.  When the hook lets the update pass (the item
    is not sold, or its price stays), [Update] succeeds and stores the
    loaded item with exactly the present fields replaced: a present name
    or description by the value given, a present price by its
    tax-inclusive price [calculatePrice price]; absent fields, the
    sold-out flag, the keys, every other item and the users are as
    before. *)
Theorem Update_partial db itemId input i :
  faults db = [] ->
  find_item itemId (items db) = Some i ->
  SoldOut i && negb (Price i =? Price (ItemService.apply_fields input i)) = false ->
  exists item db',
    run (ItemService.Update itemId input) db = (Ok item, db')
    /\ find_item itemId (items db') = Some item
    /\ Name item = default (Name i) (uiName input)
    /\ Price item = default (Price i) (ItemService.calculatePrice <$> uiPrice input)
    /\ Description item = default (Description i) (uiDescription input)
    /\ SoldOut item = SoldOut i
    /\ ID item = ID i /\ UserId item = UserId i /\ CategoryId item = CategoryId i
    /\ (forall id, id <> itemId ->
          find_item id (items db') = find_item id (items db))
    /\ users db' = users db.
Proof.
  intros Hh Hi Hhook.
  exists (ItemService.apply_fields input i). eexists.
  rewrite (Update_run db itemId input i Hh Hi), Hhook.
  split; [reflexivity|]. cbn [items users set_items].
  destruct (apply_fields_frame input i) as (H1 & H2 & H3 & H4).
  destruct (apply_fields_set input i) as (H5 & H6 & H7).
  repeat split; auto using Update_stored.
  intros id Hne. rewrite find_item_write.
  destruct (find_item id (items db)) as [row|] eqn:Hrow; [|reflexivity].
  cbn. rewrite write_columns_other; [reflexivity|].
  apply find_item_ID in Hrow, Hi. lia.
Qed.

Lemma Update_partial_witness :
  faults (table itemA) = [] /\
  find_item 1 (items (table itemA)) = Some itemA /\
  SoldOut itemA
    && negb (Price itemA =? Price (ItemService.apply_fields (price_only 150) itemA))
    = false /\
  exists item db',
    run (ItemService.Update 1 (price_only 150)) (table itemA) = (Ok item, db')
    /\ find_item 1 (items db') = Some item
    /\ Name item = default (Name itemA) (uiName (price_only 150))
    /\ Price item
       = default (Price itemA)
           (ItemService.calculatePrice <$> uiPrice (price_only 150))
    /\ Description item = default (Description itemA) (uiDescription (price_only 150))
    /\ SoldOut item = SoldOut itemA
    /\ ID item = ID itemA /\ UserId item = UserId itemA
    /\ CategoryId item = CategoryId itemA
    /\ (forall id, id <> 1 ->
          find_item id (items db') = find_item id (items (table itemA)))
    /\ users db' = users (table itemA).
Proof.
  split; [reflexivity|]. split; [reflexivity|]. split; [reflexivity|].
  exact (Update_partial (table itemA) 1 (price_only 150) itemA
           eq_refl eq_refl eq_refl).
Defined.

(** C5, as the specification words it, fails on its own example: the
    item named A with a price of 100, updated with only a price of 150,
    is stored with the name A and a price of 165. *)
Lemma Update_price_150_stores_165 :
  (run (ItemService.Update 1 (price_only 150)) (table itemA)).1
  = Ok (mkItem 1 "A" 165 "" false 1 1)
  /\ find_item 1 (items (run (ItemService.Update 1 (price_only 150)) (table itemA)).2)
     = Some (mkItem 1 "A" 165 "" false 1 1)
  /\ 165 <> 150.
Proof. split; [reflexivity|]. split; [reflexivity|]. lia. Qed.

(** C6, as the code has it.  For a sold item the hook compares the stored
    price with the price about to be written, which for a present price
    is its tax-inclusive price: when the two differ [Update] is refused
    for changing the price of a sold item and the database is as before;
    when they are equal, as they are whenever the price is absent,
    [Update] succeeds and stores the item with the present fields
    replaced. *)
Theorem Update_sold_item db itemId input i :
  faults db = [] ->
  find_item itemId (items db) = Some i ->
  SoldOut i = true ->
  (if Price (ItemService.apply_fields input i) =? Price i
   then exists db',
          run (ItemService.Update itemId input) db
          = (Ok (ItemService.apply_fields input i), db')
          /\ find_item itemId (items db') = Some (ItemService.apply_fields input i)
   else fails_with (run (ItemService.Update itemId input) db)
                   (BusinessRuleViolation ImmutablePriceAfterSale) db)
  /\ Price (ItemService.apply_fields input i)
     = default (Price i) (ItemService.calculatePrice <$> uiPrice input).
Proof.
  intros Hh Hi Hsold. split; [|apply apply_fields_set].
  rewrite (Update_run db itemId input i Hh Hi), Hsold, Z.eqb_sym.
  cbn [andb].
  destruct (Price i =? Price (ItemService.apply_fields input i)); cbn [negb].
  - eexists. split; [reflexivity|]. cbn [items set_items].
    now apply Update_stored.
  - now exists ErrSoldPriceChange.
Qed.

Lemma Update_sold_item_witness :
  faults (table soldA) = [] /\
  find_item 1 (items (table soldA)) = Some soldA /\
  SoldOut soldA = true /\
  fails_with (run (ItemService.Update 1 (price_only 200)) (table soldA))
             (BusinessRuleViolation ImmutablePriceAfterSale) (table soldA)
  /\ Price (ItemService.apply_fields (price_only 200) soldA)
     = default (Price soldA)
         (ItemService.calculatePrice <$> uiPrice (price_only 200)).
Proof.
  split; [reflexivity|]. split; [reflexivity|]. split; [reflexivity|].
  exact (Update_sold_item (table soldA) 1 (price_only 200) soldA
           eq_refl eq_refl eq_refl).
Defined.

(** The other half of the example: only a description, on the same sold
    item, is accepted. *)
Lemma Update_sold_description :
  (run (ItemService.Update 1 (description_only "x")) (table soldA)).1
  = Ok (mkItem 1 "A" 100 "x" true 1 1).
Proof. reflexivity. Qed.

(** C6, as the specification words it, fails: the sold item is stored
    with a price of 110, the update sets the price to 100, which is
    another value, and the update is accepted. *)
Lemma Update_sold_other_price_accepted :
  SoldOut sold110 = true
  /\ uiPrice (price_only 100) = Some 100
  /\ 100 <> Price sold110
  /\ (run (ItemService.Update 1 (price_only 100)) (table sold110)).1 = Ok sold110.
Proof.
  split; [reflexivity|]. split; [reflexivity|]. split; [cbn; lia | reflexivity].
Qed.

(** ** What a repository call does to the items table, whatever the
    storage does *)

Lemma statement_items db failed db' :
  statement db = (failed, db') -> items db' = items db /\ users db' = users db.
Proof.
  unfold statement. destruct (faults db); intros [= <- <-]; auto.
Qed.

Lemma FindById_inv itemId db o db' :
  ItemRepository.FindById itemId db = (o, db') ->
  items db' = items db /\
  forall item, o = Ok item -> find_item itemId (items db) = Some item.
Proof.
  unfold ItemRepository.FindById.
  destruct (statement db) as [failed db1] eqn:Hs.
  apply statement_items in Hs as [Hs _]. rewrite <- Hs.
  destruct failed; [intros [= <- <-]; split; [auto | discriminate]|].
  destruct (find_item itemId (items db1)) eqn:Hf; intros [= <- <-];
    (split; [reflexivity|]); congruence.
Qed.

Lemma Update_inv updateItem db o db' :
  ItemRepository.Update updateItem db = (o, db') ->
  items db' = items db \/
  items db' = map (ItemRepository.write_columns updateItem) (items db).
Proof.
  unfold ItemRepository.Update, BeforeUpdate.
  destruct (statement db) as [failed db1] eqn:Hs1.
  apply statement_items in Hs1 as [Hs1 _]. rewrite <- Hs1.
  match goal with
  | |- context [if ?c then (Some _, _) else _] => destruct c
  end; [intros [= <- <-]; auto|].
  destruct (statement db1) as [failed2 db2] eqn:Hs2.
  apply statement_items in Hs2 as [Hs2 _]. rewrite <- Hs2.
  destruct failed2; [intros [= <- <-]; auto|].
  destruct (_ =? 0); intros [= <- <-]; auto.
Qed.

Lemma Create_inv newItem db o db' :
  ItemRepository.Create newItem db = (o, db') ->
  exists added, items db' = items db ++ added.
Proof.
  unfold ItemRepository.Create.
  destruct (statement db) as [failed db1] eqn:Hs.
  apply statement_items in Hs as [Hs _]. rewrite <- Hs.
  destruct failed; [intros [= <- <-]; exists []; now rewrite app_nil_r|].
  destruct (ID newItem =? 0); cbn [items set_item_seq];
    match goal with
    | |- context [find_item ?a ?b] => destruct (find_item a b)
    end; intros [= <- <-]; cbn [items set_items set_item_seq];
    solve [exists []; now rewrite app_nil_r | eexists; reflexivity].
Qed.

Lemma UserFindById_inv userId db o db' :
  UserRepository.FindById userId db = (o, db') -> items db' = items db.
Proof.
  unfold UserRepository.FindById.
  destruct (statement db) as [failed db1] eqn:Hs.
  apply statement_items in Hs as [Hs _]. rewrite <- Hs.
  destruct failed; [now intros [= <- <-]|].
  destruct (users db1 !! userId); now intros [= <- <-].
Qed.

Lemma UserUpdate_inv u db o db' :
  UserRepository.Update u db = (o, db') -> items db' = items db.
Proof.
  unfold UserRepository.Update.
  destruct (statement db) as [failed db1] eqn:Hs.
  apply statement_items in Hs as [Hs _]. rewrite <- Hs.
  destruct failed; [now intros [= <- <-]|].
  destruct (users db1 !! UID u); now intros [= <- <-].
Qed.

(** Writing back a row loaded by its key, with its sold-out flag as
    loaded, changes no sold-out flag in the table. *)
Lemma write_keeps_SoldOut l u row id :
  find_item (ID u) l = Some row ->
  SoldOut u = SoldOut row ->
  SoldOut <$> find_item id (map (ItemRepository.write_columns u) l)
  = SoldOut <$> find_item id l.
Proof.
  intros Hrow Hsold. rewrite find_item_write.
  destruct (find_item id l) as [r|] eqn:Hr; [|reflexivity]. cbn. f_equal.
  unfold ItemRepository.write_columns.
  destruct (Z.eqb_spec (ID r) (ID u)) as [Heq|]; [|reflexivity]. cbn.
  apply find_item_ID in Hr as Hid. rewrite <- Hid, Heq, Hrow in Hr.
  congruence.
Qed.

(** Marking a row sold leaves every sold row sold. *)
Lemma write_sold l u id i :
  SoldOut u = true ->
  find_item id l = Some i -> SoldOut i = true ->
  exists i', find_item id (map (ItemRepository.write_columns u) l) = Some i'
             /\ SoldOut i' = true.
Proof.
  intros Hu Hi Hs. rewrite find_item_write, Hi. cbn. eexists. split; [reflexivity|].
  unfold ItemRepository.write_columns. now destruct (ID i =? ID u).
Qed.

(** [Update] of the service writes back the flag it loaded. *)
Lemma Update_flag_frame db itemId input id :
  SoldOut <$> find_item id (items (run (ItemService.Update itemId input) db).2)
  = SoldOut <$> find_item id (items db).
Proof.
  unfold ItemService.Update. cbn [run].
  destruct (ItemRepository.FindById itemId db) as [[t|e|] db1] eqn:H1;
    apply FindById_inv in H1 as [Hit Hfound]; cbn [and_then snd];
    try (now rewrite Hit).
  specialize (Hfound t eq_refl).
  destruct (ItemRepository.Update (ItemService.apply_fields input t) db1)
    as [[r|e|] db2] eqn:H2;
    apply Update_inv in H2 as [H2|H2]; cbn [and_then run snd];
    rewrite H2, Hit; try reflexivity.
  all: destruct (apply_fields_frame input t) as (HID & HS & _);
       apply find_item_ID in Hfound as Hid;
       apply (write_keeps_SoldOut _ _ t); [rewrite HID, Hid|]; assumption.
Qed.

(** C10.  [Update] of the service, with any input and on any storage,
    failing or not, leaves the stored sold-out flag of every item as it
    was; the [SoldOut] field of the input is never read. *)
Theorem Update_keeps_SoldOut db itemId (input : UpdateItemInput) id :
  SoldOut <$> find_item id (items (run (ItemService.Update itemId input) db).2)
  = SoldOut <$> find_item id (items db).
Proof. apply Update_flag_frame. Qed.

(** ** The sold-out flag over sequences of operations *)

Lemma stored_sold_flag db id :
  stored_sold db id <-> SoldOut <$> find_item id (items db) = Some true.
Proof.
  unfold stored_sold. split.
  - intros (i & -> & Hs). cbn. now rewrite Hs.
  - destruct (find_item id (items db)) as [i|]; [|discriminate].
    cbn. intros [= Hs]. now exists i.
Qed.

Lemma Create_keeps_sold db input id :
  stored_sold db id -> stored_sold (run (ItemService.Create input) db).2 id.
Proof.
  intros (i & Hi & Hs). unfold ItemService.Create. cbn [run].
  match goal with
  | |- context [and_then ?c _] => destruct c as [[a|e|] db1] eqn:H1
  end; apply Create_inv in H1 as [added H1]; cbn [and_then run snd];
    exists i; rewrite H1, find_item_app, Hi; auto.
Qed.

Lemma PurchaseItem_keeps_sold db itemId userId id :
  stored_sold db id ->
  stored_sold (run (ItemService.PurchaseItem itemId userId) db).2 id.
Proof.
  intros (i & Hi & Hs). unfold ItemService.PurchaseItem. cbn [run].
  destruct (ItemRepository.FindById itemId db) as [[t|e|] db1] eqn:H1;
    apply FindById_inv in H1 as [H1 _]; cbn [and_then snd];
    try (exists i; rewrite H1; now auto).
  destruct (SoldOut t); cbn [run snd]; [exists i; rewrite H1; now auto|].
  destruct (UserRepository.FindById userId db1) as [[u|e|] db2] eqn:H2;
    apply UserFindById_inv in H2; cbn [and_then snd];
    try (exists i; rewrite H2, H1; now auto).
  destruct (Balance u <? Price t); cbn [run snd];
    [exists i; rewrite H2, H1; now auto|].
  destruct (ItemRepository.Update (set_SoldOut true t) db2) as [[r|e|] db3] eqn:H3;
    apply Update_inv in H3; cbn [and_then run snd].
  2,3: unfold stored_sold; destruct H3 as [H3|H3]; rewrite H3, H2, H1;
       [exists i; now auto | now apply (write_sold _ _ _ i)].
  assert (Hsold3 : stored_sold db3 id).
  { destruct H3 as [H3|H3]; unfold stored_sold; rewrite H3, H2, H1;
      [exists i; now auto | now apply (write_sold _ _ _ i)]. }
  destruct (UserRepository.Update _ db3) as [[r'|e|] db4] eqn:H4;
    apply UserUpdate_inv in H4; cbn [and_then run snd];
    unfold stored_sold; rewrite H4; exact Hsold3.
Qed.

Lemma perform_keeps_sold db o id :
  stored_sold db id -> stored_sold (perform db o) id.
Proof.
  destruct o as [input|itemId input|itemId userId]; cbn [perform].
  - apply Create_keeps_sold.
  - rewrite !stored_sold_flag. now rewrite Update_flag_frame.
  - apply PurchaseItem_keeps_sold.
Qed.

(** C9.  Over any sequence of [createItem], [updateItem] and
    [purchaseItem], on any storage, an item that is stored sold is still
    stored, and sold, at the end: the flag only ever goes from false to
    true. *)
Theorem soldOut_never_reverts ops db id :
  stored_sold db id -> stored_sold (perform_all ops db) id.
Proof.
  unfold perform_all. revert db.
  induction ops as [|o ops IH]; intros db Hs; cbn [foldl]; [assumption|].
  apply IH. now apply perform_keeps_sold.
Qed.

Lemma soldOut_never_reverts_witness :
  stored_sold (table soldA) 1 /\
  stored_sold
    (perform_all [updateItem 1 (mkUpdateItemInput None None None (Some false));
                  createItem test_input; purchaseItem 1 1]
                 (table soldA)) 1.
Proof.
  assert (H : stored_sold (table soldA) 1) by (exists soldA; split; reflexivity).
  split; [exact H|].
  exact (soldOut_never_reverts _ (table soldA) 1 H).
Defined.

(** ** FindWithPagination *)

Lemma int_wrap_small x : GoInt.is_int x -> GoInt.int_wrap x = x.
Proof.
  unfold GoInt.is_int, GoInt.int_wrap, GoInt.min_int, GoInt.max_int,
    GoInt.uint_mod, GoInt.bits. cbn. intros H.
  rewrite Z.mod_small; lia.
Qed.




(** ** Well-typed tables stay well typed *)

Lemma uint_wrap_is_uint x : GoInt.is_uint (GoInt.uint_wrap x).
Proof.
  unfold GoInt.is_uint, GoInt.uint_wrap. apply Z.mod_pos_bound. reflexivity.
Qed.

Lemma calculatePrice_is_uint p : GoInt.is_uint (ItemService.calculatePrice p).
Proof. apply uint_wrap_is_uint. Qed.

Lemma statement_typed db : well_typed db -> well_typed (statement db).2.
Proof.
  unfold well_typed. destruct (statement db) as [failed db1] eqn:Hs.
  cbn [snd]. apply statement_items in Hs as [-> ->]. auto.
Qed.

Lemma found_price id l i :
  Forall (fun i => GoInt.is_uint (Price i)) l ->
  find_item id l = Some i -> GoInt.is_uint (Price i).
Proof.
  rewrite Forall_forall. intros Hall Hi. apply Hall.
  apply list_elem_of_In. unfold find_item in Hi.
  now apply find_some in Hi as [? _].
Qed.

Lemma FindById_typed itemId db :
  well_typed db ->
  well_typed (ItemRepository.FindById itemId db).2 /\
  forall item, (ItemRepository.FindById itemId db).1 = Ok item ->
               GoInt.is_uint (Price item).
Proof.
  intros Hwt. destruct (ItemRepository.FindById itemId db) as [o db1] eqn:H.
  pose proof H as H'. apply FindById_inv in H' as [Hit Hfound].
  cbn [fst snd]. split.
  - revert H. unfold ItemRepository.FindById.
    pose proof (statement_typed db Hwt).
    destruct (statement db) as [[] db0]; cbn [snd] in *;
      [now intros [= <- <-]|].
    destruct (find_item itemId (items db0)); now intros [= <- <-].
  - intros item ->. destruct Hwt as [Hp _]. eauto using found_price.
Qed.

Lemma Create_typed newItem db :
  GoInt.is_uint (Price newItem) -> well_typed db ->
  well_typed (ItemRepository.Create newItem db).2.
Proof.
  intros Hp Hwt. unfold ItemRepository.Create.
  pose proof (statement_typed db Hwt) as H.
  destruct (statement db) as [[] db0]; cbn [snd] in *; [assumption|].
  destruct H as [Hit Hus].
  destruct (ID newItem =? 0); cbn [items set_item_seq];
    match goal with
    | |- context [find_item ?a ?b] => destruct (find_item a b)
    end; cbn [snd]; split; cbn [items users set_items set_item_seq]; auto;
    apply Forall_app; split; auto.
Qed.

Lemma Update_typed updateItem db :
  GoInt.is_uint (Price updateItem) -> well_typed db ->
  well_typed (ItemRepository.Update updateItem db).2.
Proof.
  intros Hp Hwt. unfold ItemRepository.Update, BeforeUpdate.
  pose proof (statement_typed db Hwt) as H.
  destruct (statement db) as [failed db0]; cbn [snd] in *.
  match goal with
  | |- context [if ?c then (Some _, _) else _] => destruct c
  end; [assumption|].
  pose proof (statement_typed db0 H) as H0.
  destruct (statement db0) as [[] db1]; cbn [snd] in *; [assumption|].
  destruct (_ =? 0); cbn [snd]; [assumption|].
  destruct H0 as [Hit Hus]. split; cbn [items users set_items]; [|assumption].
  apply Forall_fmap. eapply Forall_impl; [exact Hit|].
  intros row Hrow. cbn. unfold ItemRepository.write_columns.
  now destruct (ID row =? ID updateItem).
Qed.

Lemma UserFindById_typed userId db :
  well_typed db ->
  well_typed (UserRepository.FindById userId db).2 /\
  forall user, (UserRepository.FindById userId db).1 = Ok user ->
               UID user = userId /\ GoInt.is_uint (Balance user).
Proof.
  intros Hwt. unfold UserRepository.FindById.
  pose proof (statement_typed db Hwt) as H.
  destruct (statement db) as [[] db0]; cbn [snd] in *;
    [split; [assumption | discriminate]|].
  destruct (users db0 !! userId) as [u|] eqn:Hu; cbn [fst snd];
    (split; [assumption|]); [|discriminate].
  intros user [= <-]. destruct H as [_ Hus]. exact (Hus _ _ Hu).
Qed.

Lemma UserUpdate_typed u db :
  GoInt.is_uint (Balance u) -> well_typed db ->
  well_typed (UserRepository.Update u db).2.
Proof.
  intros Hb Hwt. unfold UserRepository.Update.
  pose proof (statement_typed db Hwt) as H.
  destruct (statement db) as [[] db0]; cbn [snd] in *; [assumption|].
  destruct (users db0 !! UID u); cbn [snd]; [|assumption].
  destruct H as [Hit Hus]. split; cbn [items users set_users]; [assumption|].
  apply map_Forall_insert_2; auto.
Qed.

(** Every core operation keeps prices and balances within [uint] and
    users under their keys. *)
Lemma perform_typed db o : well_typed db -> well_typed (perform db o).
Proof.
  intros Hwt. destruct o as [input|itemId input|itemId userId]; cbn [perform].
  - unfold ItemService.Create. cbn [run].
    match goal with
    | |- context [and_then (ItemRepository.Create ?x db) _] =>
        pose proof (Create_typed x db (calculatePrice_is_uint _) Hwt) as H;
        destruct (ItemRepository.Create x db) as [[a|e|] db1]
    end; exact H.
  - unfold ItemService.Update. cbn [run].
    destruct (FindById_typed itemId db Hwt) as [H1 Hp].
    destruct (ItemRepository.FindById itemId db) as [[t|e|] db1];
      cbn [fst snd and_then] in *; try assumption.
    assert (Hpt : GoInt.is_uint (Price (ItemService.apply_fields input t))).
    { destruct (apply_fields_set input t) as (_ & -> & _).
      destruct (uiPrice input); cbn; auto using calculatePrice_is_uint. }
    pose proof (Update_typed _ db1 Hpt H1) as H2.
    destruct (ItemRepository.Update _ db1) as [[r|e|] db2]; exact H2.
  - unfold ItemService.PurchaseItem. cbn [run].
    destruct (FindById_typed itemId db Hwt) as [H1 Hp].
    destruct (ItemRepository.FindById itemId db) as [[t|e|] db1];
      cbn [fst snd and_then] in *; try assumption.
    destruct (SoldOut t); cbn [run snd]; [assumption|].
    destruct (UserFindById_typed userId db1 H1) as [H2 Hu].
    destruct (UserRepository.FindById userId db1) as [[u|e|] db2];
      cbn [fst snd and_then] in *; try assumption.
    destruct (Balance u <? Price t); cbn [run snd]; [assumption|].
    pose proof (Update_typed (set_SoldOut true t) db2 (Hp t eq_refl) H2) as H3.
    destruct (ItemRepository.Update _ db2) as [[r|e|] db3];
      cbn [snd and_then run] in *; try assumption.
    match goal with
    | |- context [UserRepository.Update ?x db3] =>
        pose proof (UserUpdate_typed x db3 (uint_wrap_is_uint _) H3) as H4;
        destruct (UserRepository.Update x db3) as [[r'|e|] db4]
    end; exact H4.
Qed.

(** * Further properties of the code *)

(** ** calculatePrice *)

(** X1.  For a price below 2^32, [calculatePrice] returns the price times
    11/10 with the fraction dropped: the float64 product never lands on
    the wrong side of an integer.  The result is never below the price,
    and a higher price never gets a lower result. *)
Theorem calculatePrice_markup p q :
  0 <= p <= q ->
  q < 2 ^ 32 ->
  ItemService.calculatePrice p = 11 * p / 10
  /\ p <= ItemService.calculatePrice p
  /\ ItemService.calculatePrice p <= ItemService.calculatePrice q.
Proof.
  intros Hpq Hq.
  rewrite !calculatePrice_floor by lia.
  split; [reflexivity|]. split.
  - apply Z.div_le_lower_bound; lia.
  - apply Z.div_le_mono; lia.
Qed.

Lemma calculatePrice_markup_witness :
  0 <= 150 <= 999999 /\ 999999 < 2 ^ 32 /\
  ItemService.calculatePrice 150 = 11 * 150 / 10
  /\ 150 <= ItemService.calculatePrice 150
  /\ ItemService.calculatePrice 150 <= ItemService.calculatePrice 999999.
Proof.
  assert (H1 : 0 <= 150 <= 999999) by lia.
  assert (H2 : 999999 < 2 ^ 32) by lia.
  split; [exact H1|]. split; [exact H2|].
  exact (calculatePrice_markup 150 999999 H1 H2).
Defined.

(** ** GetStatistics *)

Lemma sold_count_bounds l : 0 <= sold_count l <= Z.of_nat (length l).
Proof.
  unfold sold_count. pose proof (length_filter (fun i => SoldOut i = true) l). lia.
Qed.

(** X2.  On a storage that does not fail and a table that is not empty,
    [GetStatistics] returns the number of rows, the number of sold rows,
    which lies between 0 and the number of rows, and the sum of the
    prices, taken modulo 2^64 as the [uint] accumulator does, divided by
    the number of rows; the database is left as it was. *)
Theorem GetStatistics_aggregate db :
  faults db = [] ->
  items db <> [] ->
  GoInt.is_uint (Z.of_nat (length (items db))) ->
  exists stats,
    run ItemService.GetStatistics db = (Ok stats, db)
    /\ TotalItems stats = Z.of_nat (length (items db))
    /\ SoldItems stats = sold_count (items db)
    /\ 0 <= SoldItems stats <= TotalItems stats
    /\ AveragePrice stats
       = (total_price (items db) mod 2 ^ 64) / Z.of_nat (length (items db)).
Proof.
  intros Hh Hne Hlen. eexists.
  rewrite (GetStatistics_some_items db Hh Hne Hlen).
  split; [reflexivity|]. cbn [TotalItems SoldItems AveragePrice].
  repeat split; try apply sold_count_bounds.
Qed.

Lemma GetStatistics_aggregate_witness :
  faults shelf = [] /\ items shelf <> [] /\
  GoInt.is_uint (Z.of_nat (length (items shelf))) /\
  exists stats,
    run ItemService.GetStatistics shelf = (Ok stats, shelf)
    /\ TotalItems stats = Z.of_nat (length (items shelf))
    /\ SoldItems stats = sold_count (items shelf)
    /\ 0 <= SoldItems stats <= TotalItems stats
    /\ AveragePrice stats
       = (total_price (items shelf) mod 2 ^ 64) / Z.of_nat (length (items shelf)).
Proof.
  assert (H2 : items shelf <> []) by discriminate.
  assert (H3 : GoInt.is_uint (Z.of_nat (length (items shelf))))
    by (vm_compute; split; [discriminate | reflexivity]).
  split; [reflexivity|]. split; [exact H2|]. split; [exact H3|].
  exact (GetStatistics_aggregate shelf eq_refl H2 H3).
Defined.

(** ** What a repository call does to both tables, whatever the storage
    does *)

Lemma FindById_effect itemId db o db' :
  ItemRepository.FindById itemId db = (o, db') ->
  items db' = items db /\ users db' = users db /\
  forall item, o = Ok item -> find_item itemId (items db) = Some item.
Proof.
  unfold ItemRepository.FindById.
  destruct (statement db) as [failed db1] eqn:Hs.
  apply statement_items in Hs as [Hi Hu]. rewrite <- Hi, <- Hu.
  destruct failed; [intros [= <- <-]; repeat split; discriminate|].
  destruct (find_item itemId (items db1)) eqn:Hf; intros [= <- <-];
    repeat split; congruence.
Qed.

Lemma Update_effect updateItem db o db' :
  ItemRepository.Update updateItem db = (o, db') ->
  users db' = users db /\
  match o with
  | Ok _ => items db' = map (ItemRepository.write_columns updateItem) (items db)
  | _ => items db' = items db
  end.
Proof.
  unfold ItemRepository.Update, BeforeUpdate.
  destruct (statement db) as [failed db1] eqn:Hs1.
  apply statement_items in Hs1 as [Hi1 Hu1]. rewrite <- Hi1, <- Hu1.
  match goal with
  | |- context [if ?c then (Some _, _) else _] => destruct c
  end; [intros [= <- <-]; auto|].
  destruct (statement db1) as [failed2 db2] eqn:Hs2.
  apply statement_items in Hs2 as [Hi2 Hu2]. rewrite <- Hi2, <- Hu2.
  destruct failed2; [intros [= <- <-]; auto|].
  destruct (_ =? 0); intros [= <- <-]; auto.
Qed.

Lemma Create_effect newItem db o db' :
  ItemRepository.Create newItem db = (o, db') ->
  users db' = users db /\ exists added, items db' = items db ++ added.
Proof.
  unfold ItemRepository.Create.
  destruct (statement db) as [failed db1] eqn:Hs.
  apply statement_items in Hs as [Hi Hu]. rewrite <- Hi, <- Hu.
  destruct failed;
    [intros [= <- <-]; split; [reflexivity | exists []; now rewrite app_nil_r]|].
  destruct (ID newItem =? 0); cbn [items set_item_seq];
    match goal with
    | |- context [find_item ?a ?b] => destruct (find_item a b)
    end; intros [= <- <-]; cbn [items users set_items set_item_seq];
    (split; [reflexivity|]);
    solve [exists []; now rewrite app_nil_r | eexists; reflexivity].
Qed.

Lemma UserFindById_effect userId db o db' :
  UserRepository.FindById userId db = (o, db') ->
  items db' = items db /\ users db' = users db /\
  forall user, o = Ok user -> users db !! userId = Some user.
Proof.
  unfold UserRepository.FindById.
  destruct (statement db) as [failed db1] eqn:Hs.
  apply statement_items in Hs as [Hi Hu]. rewrite <- Hi, <- Hu.
  destruct failed; [intros [= <- <-]; repeat split; discriminate|].
  destruct (users db1 !! userId) eqn:Hf; intros [= <- <-];
    repeat split; congruence.
Qed.

Lemma UserUpdate_effect u db o db' :
  UserRepository.Update u db = (o, db') ->
  items db' = items db /\
  match o with
  | Ok _ => users db' = <[UID u := u]> (users db)
  | _ => users db' = users db
  end.
Proof.
  unfold UserRepository.Update.
  destruct (statement db) as [failed db1] eqn:Hs.
  apply statement_items in Hs as [Hi Hu]. rewrite <- Hi, <- Hu.
  destruct failed; [intros [= <- <-]; auto|].
  destruct (users db1 !! UID u); intros [= <- <-]; auto.
Qed.

(** The two ways a purchase can end: without success and without a
    change to the users, or with success, the item written sold and the
    buyer written with the price taken off. *)
Lemma PurchaseItem_effect db itemId userId :
  ((run (ItemService.PurchaseItem itemId userId) db).1 <> Ok tt
   /\ users (run (ItemService.PurchaseItem itemId userId) db).2 = users db
   /\ (items (run (ItemService.PurchaseItem itemId userId) db).2 = items db
       \/ exists i,
            find_item itemId (items db) = Some i /\
            items (run (ItemService.PurchaseItem itemId userId) db).2
            = map (ItemRepository.write_columns (set_SoldOut true i)) (items db)))
  \/ ((run (ItemService.PurchaseItem itemId userId) db).1 = Ok tt
      /\ exists i u,
           find_item itemId (items db) = Some i /\ SoldOut i = false
           /\ users db !! userId = Some u /\ Price i <= Balance u
           /\ items (run (ItemService.PurchaseItem itemId userId) db).2
              = map (ItemRepository.write_columns (set_SoldOut true i)) (items db)
           /\ users (run (ItemService.PurchaseItem itemId userId) db).2
              = <[UID u := set_Balance (GoInt.uint_wrap (Balance u - Price i)) u]>
                  (users db)).
Proof.
  unfold ItemService.PurchaseItem. cbn [run].
  destruct (ItemRepository.FindById itemId db) as [[t|e|] db1] eqn:H1;
    apply FindById_effect in H1 as (Hi1 & Hu1 & Hf1); cbn [and_then fst snd];
    try (left; rewrite Hi1, Hu1; repeat split; [discriminate | now left]).
  specialize (Hf1 t eq_refl).
  destruct (SoldOut t) eqn:Hsold; cbn [run fst snd];
    [left; rewrite Hi1, Hu1; repeat split; [discriminate | now left]|].
  destruct (UserRepository.FindById userId db1) as [[u|e|] db2] eqn:H2;
    apply UserFindById_effect in H2 as (Hi2 & Hu2 & Hf2); cbn [and_then fst snd];
    try (left; rewrite Hi2, Hu2, Hi1, Hu1; repeat split; [discriminate | now left]).
  specialize (Hf2 u eq_refl). rewrite Hu1 in Hf2.
  destruct (Z.ltb_spec (Balance u) (Price t)); cbn [run fst snd];
    [left; rewrite Hi2, Hu2, Hi1, Hu1; repeat split; [discriminate | now left]|].
  destruct (ItemRepository.Update (set_SoldOut true t) db2) as [[r|e|] db3] eqn:H3;
    apply Update_effect in H3 as (Hu3 & Hi3); cbn [and_then run fst snd];
    try (left; rewrite Hi3, Hu3, Hi2, Hu2, Hi1, Hu1;
         repeat split; [discriminate | now left]).
  destruct (UserRepository.Update _ db3) as [[r'|e|] db4] eqn:H4;
    apply UserUpdate_effect in H4 as (Hi4 & Hu4); cbn [and_then run fst snd].
  - right. split; [reflexivity|]. exists t, u.
    rewrite Hi4, Hi3, Hi2, Hi1, Hu4, Hu3, Hu2, Hu1. cbn [Price set_SoldOut UID set_Balance].
    repeat split; auto.
  - left. rewrite Hi4, Hi3, Hi2, Hi1, Hu4, Hu3, Hu2, Hu1.
    repeat split; [discriminate|]. right. now exists t.
  - left. rewrite Hi4, Hi3, Hi2, Hi1, Hu4, Hu3, Hu2, Hu1.
    repeat split; [discriminate|]. right. now exists t.
Qed.

(** ** PurchaseItem on any storage *)

(** X4.  Whatever the storage does, a [PurchaseItem] that does not return
    success has changed no user: a buyer is never debited by a purchase
    that failed. *)
Theorem PurchaseItem_failure_keeps_balances db itemId userId :
  (run (ItemService.PurchaseItem itemId userId) db).1 <> Ok tt ->
  users (run (ItemService.PurchaseItem itemId userId) db).2 = users db.
Proof.
  intros Hfail.
  destruct (PurchaseItem_effect db itemId userId) as [(_ & Hu & _)|[Hok _]];
    [exact Hu | contradiction].
Qed.

Lemma PurchaseItem_failure_keeps_balances_witness :
  (run (ItemService.PurchaseItem 1 1) failing_shop).1 <> Ok tt /\
  users (run (ItemService.PurchaseItem 1 1) failing_shop).2 = users failing_shop.
Proof.
  assert (H : (run (ItemService.PurchaseItem 1 1) failing_shop).1 <> Ok tt)
    by (vm_compute; discriminate).
  split; [exact H|].
  exact (PurchaseItem_failure_keeps_balances failing_shop 1 1 H).
Defined.

(** X5.  Whatever the storage does, [PurchaseItem itemId userId] on
    well-typed tables leaves every item with another id and every user
    with another id exactly as stored. *)
Theorem PurchaseItem_touches_only_its_rows db itemId userId :
  well_typed db ->
  (forall id, id <> itemId ->
     find_item id (items (run (ItemService.PurchaseItem itemId userId) db).2)
     = find_item id (items db))
  /\ (forall uid, uid <> userId ->
        users (run (ItemService.PurchaseItem itemId userId) db).2 !! uid
        = users db !! uid).
Proof.
  intros [_ Hus].
  assert (Hitems : forall i id, find_item itemId (items db) = Some i ->
            id <> itemId ->
            find_item id (map (ItemRepository.write_columns (set_SoldOut true i))
                              (items db)) = find_item id (items db)).
  { intros i id Hi Hne. rewrite find_item_write.
    destruct (find_item id (items db)) as [row|] eqn:Hrow; [|reflexivity].
    cbn. rewrite write_columns_other; [reflexivity|].
    cbn. apply find_item_ID in Hrow, Hi. lia. }
  destruct (PurchaseItem_effect db itemId userId)
    as [(_ & Hu & [Hi | (i & Hf & Hi)])
       |(_ & i & u & Hf & _ & Hlook & _ & Hi & Hu)];
    rewrite Hi, Hu; split; intros x Hne; auto.
  destruct (Hus _ _ Hlook) as [HUID _].
  rewrite lookup_insert_ne; [reflexivity | lia].
Qed.

Lemma PurchaseItem_touches_only_its_rows_witness :
  well_typed shop /\
  (forall id, id <> 1 ->
     find_item id (items (run (ItemService.PurchaseItem 1 1) shop).2)
     = find_item id (items shop))
  /\ (forall uid, uid <> 1 ->
        users (run (ItemService.PurchaseItem 1 1) shop).2 !! uid
        = users shop !! uid).
Proof.
  split; [exact shop_well_typed|].
  exact (PurchaseItem_touches_only_its_rows shop 1 1 shop_well_typed).
Defined.

(** ** Sequences of operations on any storage *)

Lemma Create_run_effect db input :
  users (run (ItemService.Create input) db).2 = users db
  /\ exists added, items (run (ItemService.Create input) db).2 = items db ++ added.
Proof.
  unfold ItemService.Create. cbn [run].
  match goal with
  | |- context [and_then ?c _] => destruct c as [[a|e|] db1] eqn:H1
  end; apply Create_effect in H1; cbn [and_then run snd]; exact H1.
Qed.

Lemma Update_run_effect db itemId input :
  users (run (ItemService.Update itemId input) db).2 = users db
  /\ (items (run (ItemService.Update itemId input) db).2 = items db
      \/ exists u,
           items (run (ItemService.Update itemId input) db).2
           = map (ItemRepository.write_columns u) (items db)).
Proof.
  unfold ItemService.Update. cbn [run].
  destruct (ItemRepository.FindById itemId db) as [[t|e|] db1] eqn:H1;
    apply FindById_effect in H1 as (Hi1 & Hu1 & _); cbn [and_then snd];
    try (rewrite Hi1, Hu1; now auto).
  destruct (ItemRepository.Update _ db1) as [[r|e|] db2] eqn:H2;
    apply Update_effect in H2 as (Hu2 & Hi2); cbn [and_then run snd];
    rewrite Hi2, Hu2, Hi1, Hu1; eauto.
Qed.

Lemma write_columns_keys u l :
  ID <$> map (ItemRepository.write_columns u) l = ID <$> l.
Proof.
  induction l as [|x l IH]; [reflexivity|].
  cbn. now rewrite write_columns_ID, <- IH.
Qed.

Lemma perform_keys db o :
  (ID <$> items db) ⊆+ (ID <$> items (perform db o)).
Proof.
  destruct o as [input|itemId input|itemId userId]; cbn [perform].
  - destruct (Create_run_effect db input) as [_ [added ->]].
    rewrite fmap_app. now apply submseteq_inserts_r.
  - destruct (Update_run_effect db itemId input) as [_ [-> | [u ->]]];
      [|rewrite write_columns_keys]; reflexivity.
  - destruct (PurchaseItem_effect db itemId userId)
      as [(_ & _ & [-> | (i & _ & ->)]) | (_ & i & u & _ & _ & _ & _ & -> & _)];
      try rewrite write_columns_keys; reflexivity.
Qed.

(** X6.  Whatever the storage does, no sequence of [Create], [Update]
    and [PurchaseItem] removes a row of the items table or changes the
    key of a row: the keys stored before are all among the keys stored
    after, each at least as often, in whatever order the rows are. *)
Theorem operations_keep_keys ops db :
  (ID <$> items db) ⊆+ (ID <$> items (perform_all ops db)).
Proof.
  unfold perform_all. revert db.
  induction ops as [|o ops IH]; intros db; cbn [foldl]; [reflexivity|].
  etransitivity; [apply perform_keys | apply IH].
Qed.

Lemma perform_balance db o uid u :
  well_typed db ->
  users db !! uid = Some u ->
  exists u', users (perform db o) !! uid = Some u'
             /\ 0 <= Balance u' <= Balance u.
Proof.
  intros Hwt Hu.
  assert (Hsame : exists u', users db !! uid = Some u'
                             /\ 0 <= Balance u' <= Balance u).
  { exists u. split; [exact Hu|]. destruct Hwt as [_ Hus].
    destruct (Hus _ _ Hu) as [_ Hb]. unfold GoInt.is_uint in Hb. lia. }
  destruct o as [input|itemId input|itemId userId]; cbn [perform].
  - destruct (Create_run_effect db input) as [-> _]. exact Hsame.
  - destruct (Update_run_effect db itemId input) as [-> _]. exact Hsame.
  - destruct (PurchaseItem_effect db itemId userId)
      as [(_ & -> & _) | (_ & i & b & Hi & _ & Hb & Hle & _ & ->)];
      [exact Hsame|].
    destruct Hwt as [Hp Hus].
    destruct (Hus _ _ Hb) as [HUID Hbal].
    pose proof (found_price _ _ _ Hp Hi) as Hprice.
    assert (Hw : GoInt.uint_wrap (Balance b - Price i) = Balance b - Price i).
    { unfold GoInt.uint_wrap, GoInt.is_uint in *. apply Z.mod_small. lia. }
    rewrite Hw, HUID.
    destruct (Z.eq_dec userId uid) as [->|Hne].
    + rewrite lookup_insert_eq. eexists. split; [reflexivity|].
      cbn [Balance set_Balance]. rewrite Hb in Hu. injection Hu as <-.
      unfold GoInt.is_uint in *. lia.
    + rewrite lookup_insert_ne by assumption. exact Hsame.
Qed.

(** X7.  On well-typed tables and whatever the storage does, over any
    sequence of [Create], [Update] and [PurchaseItem] a user stays stored
    and its balance never rises: the only write to a balance is the debit
    of a purchase, and it never takes a balance below zero. *)
Theorem balances_never_rise ops db uid u :
  well_typed db ->
  users db !! uid = Some u ->
  exists u', users (perform_all ops db) !! uid = Some u'
             /\ 0 <= Balance u' <= Balance u.
Proof.
  unfold perform_all. revert db u.
  induction ops as [|o ops IH]; intros db u Hwt Hu; cbn [foldl].
  - exists u. split; [exact Hu|]. destruct Hwt as [_ Hus].
    destruct (Hus _ _ Hu) as [_ Hb]. unfold GoInt.is_uint in Hb. lia.
  - destruct (perform_balance db o uid u Hwt Hu) as (u1 & Hu1 & Hb1).
    destruct (IH (perform db o) u1 (perform_typed db o Hwt) Hu1)
      as (u' & Hu' & Hb').
    exists u'. split; [exact Hu'|lia].
Qed.

Lemma balances_never_rise_witness :
  well_typed shop /\ users shop !! 1 = Some alice /\
  exists u',
    users (perform_all [purchaseItem 1 1; createItem test_input;
                        purchaseItem 2 1] shop) !! 1 = Some u'
    /\ 0 <= Balance u' <= Balance alice.
Proof.
  split; [exact shop_well_typed|]. split; [reflexivity|].
  exact (balances_never_rise _ shop 1 alice shop_well_typed eq_refl).
Defined.

(** ** Two purchases in a row *)

Lemma PurchaseItem_success db itemId userId i u :
  faults db = [] ->
  find_item itemId (items db) = Some i ->
  SoldOut i = false ->
  users db !! userId = Some u ->
  UID u = userId ->
  Price i <= Balance u ->
  run (ItemService.PurchaseItem itemId userId) db =
  (Ok tt,
   set_users
     (<[userId := set_Balance (GoInt.uint_wrap (Balance u - Price i)) u]> (users db))
     (set_items (map (ItemRepository.write_columns (set_SoldOut true i)) (items db))
                db)).
Proof.
  intros Hh Hi Hsold Hu HUID Hle.
  unfold ItemService.PurchaseItem. cbn [run].
  rewrite FindById_healthy, Hi by assumption. cbn [and_then]. rewrite Hsold.
  cbn [run]. rewrite UserFindById_healthy, Hu by assumption. cbn [and_then].
  destruct (Z.ltb_spec (Balance u) (Price i)); [lia|]. cbn [run].
  pose proof (find_item_ID _ _ _ Hi) as HID.
  rewrite (Update_healthy db Hh (set_SoldOut true i) i);
    [| cbn; now rewrite HID | cbn; now rewrite Hsold].
  cbn [and_then run].
  set (db1 := set_items _ db).
  rewrite (UserUpdate_healthy db1 Hh _ u) by (cbn; now rewrite HUID).
  cbn [and_then run UID set_Balance Price set_SoldOut]. now rewrite HUID.
Qed.

(** X8.  On a storage that does not fail, after a [PurchaseItem] that
    succeeded every further [PurchaseItem] of the same item, by any
    buyer, known or not, is refused as already sold out and leaves the
    whole database, balances included, as the first purchase left it. *)
Theorem PurchaseItem_twice db itemId userId buyer2 i u :
  faults db = [] ->
  well_typed db ->
  find_item itemId (items db) = Some i ->
  SoldOut i = false ->
  users db !! userId = Some u ->
  Price i <= Balance u ->
  exists db1,
    run (ItemService.PurchaseItem itemId userId) db = (Ok tt, db1)
    /\ fails_with (run (ItemService.PurchaseItem itemId buyer2) db1)
                  (BusinessRuleViolation AlreadySoldOut) db1.
Proof.
  intros Hh [_ Hus] Hi Hsold Hu Hle.
  destruct (Hus _ _ Hu) as [HUID _].
  eexists. split; [now apply (PurchaseItem_success db itemId userId i u)|].
  set (db1 := set_users _ _).
  assert (Hh1 : faults db1 = []) by exact Hh.
  assert (Hi1 : find_item itemId (items db1) = Some (set_SoldOut true i)).
  { subst db1. cbn [items set_users set_items]. rewrite find_item_write, Hi. cbn.
    now rewrite write_columns_same by (cbn; auto). }
  unfold ItemService.PurchaseItem. cbn [run].
  rewrite FindById_healthy, Hi1 by assumption. cbn [and_then SoldOut set_SoldOut run].
  now exists ErrSoldOut.
Qed.

Lemma PurchaseItem_twice_witness :
  faults shop = [] /\ well_typed shop /\
  find_item 1 (items shop) = Some item500 /\ SoldOut item500 = false /\
  users shop !! 1 = Some alice /\ Price item500 <= Balance alice /\
  exists db1,
    run (ItemService.PurchaseItem 1 1) shop = (Ok tt, db1)
    /\ fails_with (run (ItemService.PurchaseItem 1 2) db1)
                  (BusinessRuleViolation AlreadySoldOut) db1.
Proof.
  assert (H : Price item500 <= Balance alice) by (cbn; lia).
  split; [reflexivity|]. split; [exact shop_well_typed|].
  split; [reflexivity|]. split; [reflexivity|]. split; [reflexivity|].
  split; [exact H|].
  exact (PurchaseItem_twice shop 1 1 2 item500 alice eq_refl shop_well_typed
           eq_refl eq_refl eq_refl H).
Defined.

(** ** Unknown keys *)

Lemma Delete_healthy db itemId :
  faults db = [] ->
  ItemRepository.Delete itemId db =
  if ItemRepository.RowsAffected itemId (items db) =? 0
  then (Err ErrItemNotFound, db)
  else (Ok tt, set_items (filter (fun i => ID i <> itemId) (items db)) db).
Proof.
  intros Hh. unfold ItemRepository.Delete. now rewrite statement_healthy.
Qed.

(** X9.  On a storage that does not fail, an id other than zero that no
    stored item has is answered with the not-found error by [Update] of
    the service, by [Update] of the repository and by [Delete], and none
    of them changes the database. *)
Theorem unknown_item_not_found db itemId input updateItem :
  faults db = [] ->
  itemId <> 0 ->
  find_item itemId (items db) = None ->
  ID updateItem = itemId ->
  fails_with (run (ItemService.Update itemId input) db) NotFound db
  /\ ItemRepository.Update updateItem db = (Err ErrItemNotFound, db)
  /\ ItemRepository.Delete itemId db = (Err ErrItemNotFound, db).
Proof.
  intros Hh _ Hnone HID. repeat split.
  - unfold ItemService.Update. cbn [run].
    rewrite FindById_healthy, Hnone by assumption. now exists ErrItemNotFound.
  - unfold ItemRepository.Update.
    rewrite BeforeUpdate_healthy, HID, Hnone by assumption. cbn.
    rewrite statement_healthy by assumption.
    now rewrite RowsAffected_missing.
  - rewrite Delete_healthy by assumption. now rewrite RowsAffected_missing.
Qed.

Lemma unknown_item_not_found_witness :
  faults shop = [] /\ 7 <> 0 /\ find_item 7 (items shop) = None /\
  ID (set_ID 7 itemA) = 7 /\
  fails_with (run (ItemService.Update 7 (price_only 150)) shop) NotFound shop
  /\ ItemRepository.Update (set_ID 7 itemA) shop = (Err ErrItemNotFound, shop)
  /\ ItemRepository.Delete 7 shop = (Err ErrItemNotFound, shop).
Proof.
  assert (H : 7 <> 0) by discriminate.
  split; [reflexivity|]. split; [exact H|]. split; [reflexivity|].
  split; [reflexivity|].
  exact (unknown_item_not_found shop 7 (price_only 150) (set_ID 7 itemA)
           eq_refl H eq_refl eq_refl).
Defined.

(** ** Create and Delete of the repository *)

(** X10.  On a storage that does not fail, [Create] of an item without an
    id, when the next serial number is free and not zero, stores the item
    under that number: the item returned has a non-zero id, [FindById]
    of that id returns exactly the item returned, and every item stored
    before is found as before. *)
Theorem Create_then_FindById db newItem :
  faults db = [] ->
  ID newItem = 0 ->
  item_seq db + 1 <> 0 ->
  find_item (item_seq db + 1) (items db) = None ->
  exists created db',
    ItemRepository.Create newItem db = (Ok created, db')
    /\ created = set_ID (item_seq db + 1) newItem
    /\ ID created <> 0
    /\ ItemRepository.FindById (ID created) db' = (Ok created, db')
    /\ (forall id i, find_item id (items db) = Some i ->
          find_item id (items db') = Some i).
Proof.
  intros Hh Hzero Hseq Hfresh.
  unfold ItemRepository.Create. rewrite statement_healthy by assumption.
  rewrite Hzero. cbn [Z.eqb ID set_ID items set_item_seq]. rewrite Hfresh.
  do 2 eexists. split; [reflexivity|]. split; [reflexivity|].
  split; [exact Hseq|]. split.
  - rewrite FindById_healthy by exact Hh.
    cbn [items set_items set_item_seq ID set_ID].
    rewrite find_item_app, Hfresh. unfold find_item. cbn [find ID].
    now rewrite Z.eqb_refl.
  - intros id i Hi. cbn [items set_items set_item_seq].
    now rewrite find_item_app, Hi.
Qed.

Lemma Create_then_FindById_witness :
  faults shop = [] /\ ID (set_ID 0 itemA) = 0 /\ item_seq shop + 1 <> 0 /\
  find_item (item_seq shop + 1) (items shop) = None /\
  exists created db',
    ItemRepository.Create (set_ID 0 itemA) shop = (Ok created, db')
    /\ created = set_ID (item_seq shop + 1) (set_ID 0 itemA)
    /\ ID created <> 0
    /\ ItemRepository.FindById (ID created) db' = (Ok created, db')
    /\ (forall id i, find_item id (items shop) = Some i ->
          find_item id (items db') = Some i).
Proof.
  assert (H : item_seq shop + 1 <> 0) by (cbn; lia).
  split; [reflexivity|]. split; [reflexivity|]. split; [exact H|].
  split; [reflexivity|].
  exact (Create_then_FindById shop (set_ID 0 itemA) eq_refl eq_refl H eq_refl).
Defined.

Lemma find_item_deleted id itemId l :
  find_item id (filter (fun i => ID i <> itemId) l) =
  if id =? itemId then None else find_item id l.
Proof.
  unfold find_item. induction l as [|x l IH]; cbn [find].
  - now destruct (id =? itemId).
  - destruct (Z.eq_dec (ID x) itemId) as [Heq|Hne].
    + rewrite filter_cons_False by tauto. rewrite IH.
      destruct (Z.eqb_spec id itemId) as [->|Hid]; [reflexivity|].
      destruct (Z.eqb_spec (ID x) id); [lia | reflexivity].
    + rewrite filter_cons_True by assumption. cbn [find]. rewrite IH.
      destruct (Z.eqb_spec (ID x) id) as [Hx|Hx]; [|reflexivity].
      destruct (Z.eqb_spec id itemId); [lia | reflexivity].
Qed.

(** X11.  On a storage that does not fail, [Delete] of a stored item
    succeeds; afterwards [FindById] of that id and a second [Delete] of
    it both return the not-found error, while every item with another id
    and every user are as before. *)
Theorem Delete_then_FindById db itemId i :
  faults db = [] ->
  find_item itemId (items db) = Some i ->
  exists db',
    ItemRepository.Delete itemId db = (Ok tt, db')
    /\ ItemRepository.FindById itemId db' = (Err ErrItemNotFound, db')
    /\ ItemRepository.Delete itemId db' = (Err ErrItemNotFound, db')
    /\ (forall id, id <> itemId ->
          find_item id (items db') = find_item id (items db))
    /\ users db' = users db.
Proof.
  intros Hh Hi. rewrite Delete_healthy by assumption.
  rewrite (RowsAffected_found _ _ _ Hi).
  eexists. split; [reflexivity|].
  set (db' := set_items _ db).
  assert (Hh' : faults db' = []) by exact Hh.
  assert (Hgone : find_item itemId (items db') = None).
  { subst db'. cbn [items set_items]. now rewrite find_item_deleted, Z.eqb_refl. }
  repeat split.
  - rewrite FindById_healthy by assumption. now rewrite Hgone.
  - rewrite Delete_healthy by assumption. now rewrite RowsAffected_missing.
  - intros id Hne. subst db'. cbn [items set_items]. rewrite find_item_deleted.
    destruct (Z.eqb_spec id itemId); [contradiction | reflexivity].
Qed.

Lemma Delete_then_FindById_witness :
  faults shop = [] /\ find_item 1 (items shop) = Some item500 /\
  exists db',
    ItemRepository.Delete 1 shop = (Ok tt, db')
    /\ ItemRepository.FindById 1 db' = (Err ErrItemNotFound, db')
    /\ ItemRepository.Delete 1 db' = (Err ErrItemNotFound, db')
    /\ (forall id, id <> 1 ->
          find_item id (items db') = find_item id (items shop))
    /\ users db' = users shop.
Proof.
  split; [reflexivity|]. split; [reflexivity|].
  exact (Delete_then_FindById shop 1 item500 eq_refl eq_refl).
Defined.

(** ** A storage that fails *)

Lemma statement_fails db f :
  faults db = true :: f -> statement db = (true, set_faults f db).
Proof. unfold statement. now intros ->. Qed.

(** X12.  When the first statement of a call fails, [Create], [Update],
    [PurchaseItem] and [GetStatistics] of the service all return the
    error of the storage, and both tables are as before: nothing is
    written after a failed first read or write. *)
Theorem first_statement_fails db f input itemId updateInput userId :
  faults db = true :: f ->
  fails_with (run (ItemService.Create input) db)
             InfrastructureError (set_faults f db)
  /\ fails_with (run (ItemService.Update itemId updateInput) db)
                InfrastructureError (set_faults f db)
  /\ fails_with (run (ItemService.PurchaseItem itemId userId) db)
                InfrastructureError (set_faults f db)
  /\ fails_with (run ItemService.GetStatistics db)
                InfrastructureError (set_faults f db)
  /\ items (set_faults f db) = items db
  /\ users (set_faults f db) = users db.
Proof.
  intros Hf.
  repeat split; try (exists ErrStorage; split; [|reflexivity]).
  - unfold ItemService.Create. cbn [run]. unfold ItemRepository.Create.
    now rewrite (statement_fails db f Hf).
  - unfold ItemService.Update. cbn [run]. unfold ItemRepository.FindById.
    now rewrite (statement_fails db f Hf).
  - unfold ItemService.PurchaseItem. cbn [run]. unfold ItemRepository.FindById.
    now rewrite (statement_fails db f Hf).
  - unfold ItemService.GetStatistics. cbn [run]. unfold ItemRepository.FindAll.
    now rewrite (statement_fails db f Hf).
Qed.

Lemma first_statement_fails_witness :
  faults (set_faults [true] shop) = [true] /\
  fails_with (run (ItemService.Create test_input) (set_faults [true] shop))
             InfrastructureError (set_faults [] (set_faults [true] shop))
  /\ fails_with (run (ItemService.Update 1 (price_only 150)) (set_faults [true] shop))
                InfrastructureError (set_faults [] (set_faults [true] shop))
  /\ fails_with (run (ItemService.PurchaseItem 1 1) (set_faults [true] shop))
                InfrastructureError (set_faults [] (set_faults [true] shop))
  /\ fails_with (run ItemService.GetStatistics (set_faults [true] shop))
                InfrastructureError (set_faults [] (set_faults [true] shop))
  /\ items (set_faults [] (set_faults [true] shop)) = items (set_faults [true] shop)
  /\ users (set_faults [] (set_faults [true] shop)) = users (set_faults [true] shop).
Proof.
  split; [reflexivity|].
  exact (first_statement_fails (set_faults [true] shop) [] test_input 1
           (price_only 150) 1 eq_refl).
Defined.

(** X13.  The hook drops the error of its own lookup: when the storage
    fails on exactly that statement, [Update] of the service goes
    through for any input, also for a sold item whose price the input
    changes, and the new price is stored. *)
Theorem Update_hook_lookup_fails db itemId input i :
  faults db = [false; true] ->
  find_item itemId (items db) = Some i ->
  exists db',
    run (ItemService.Update itemId input) db
    = (Ok (ItemService.apply_fields input i), db')
    /\ find_item itemId (items db') = Some (ItemService.apply_fields input i)
    /\ faults db' = [].
Proof.
  intros Hf Hi.
  destruct db as [its sq us fl]. cbn [faults items users] in *. subst fl.
  pose proof (find_item_ID _ _ _ Hi) as HID.
  destruct (apply_fields_frame input i) as (HIDa & _).
  unfold ItemService.Update. cbn [run].
  unfold ItemRepository.FindById. tables. rewrite Hi. cbn [and_then run].
  unfold ItemRepository.Update, BeforeUpdate. tables.
  cbn [SoldOut zeroItem andb]. tables.
  rewrite HIDa, HID, (RowsAffected_found _ _ _ Hi). cbn [and_then run].
  eexists. split; [reflexivity|]. tables. split; [|reflexivity].
  now apply (Update_stored (mkDB its sq us []) itemId input i).
Qed.

Lemma Update_hook_lookup_fails_witness :
  faults (set_faults [false; true] (table soldA)) = [false; true] /\
  find_item 1 (items (set_faults [false; true] (table soldA))) = Some soldA /\
  exists db',
    run (ItemService.Update 1 (price_only 200))
        (set_faults [false; true] (table soldA))
    = (Ok (ItemService.apply_fields (price_only 200) soldA), db')
    /\ find_item 1 (items db')
       = Some (ItemService.apply_fields (price_only 200) soldA)
    /\ faults db' = [].
Proof.
  split; [reflexivity|]. split; [reflexivity|].
  exact (Update_hook_lookup_fails (set_faults [false; true] (table soldA)) 1
           (price_only 200) soldA eq_refl eq_refl).
Defined.

(** ** FindByPriceRange *)

Lemma price_asc_total : Total price_asc.
Proof. intros a b. unfold price_asc. lia. Qed.

Lemma price_asc_trans : Transitive price_asc.
Proof. intros a b c. unfold price_asc. lia. Qed.

(** X14.  On a storage that does not fail, [FindByPriceRange] returns
    exactly the stored rows whose price lies between the two bounds, both
    included, each as often as it is stored, in ascending order of price;
    when the lower bound is above the upper one it returns no row. *)
Theorem FindByPriceRange_sorted db minPrice maxPrice :
  faults db = [] ->
  exists rows,
    ItemRepository.FindByPriceRange minPrice maxPrice db = (Ok rows, db)
    /\ StronglySorted price_asc rows
    /\ rows ≡ₚ filter (fun i => minPrice <= Price i /\ Price i <= maxPrice)
                      (items db)
    /\ (forall i, i ∈ rows <->
                  i ∈ items db /\ minPrice <= Price i /\ Price i <= maxPrice)
    /\ (maxPrice < minPrice -> rows = []).
Proof.
  intros Hh. unfold ItemRepository.FindByPriceRange.
  rewrite statement_healthy by assumption.
  eexists. split; [reflexivity|].
  set (inrange := filter _ (items db)).
  pose proof (merge_sort_Permutation price_asc inrange) as Hperm.
  split; [|split; [exact Hperm|split]].
  - apply (@StronglySorted_merge_sort _ price_asc _ price_asc_trans price_asc_total).
  - intros i. rewrite Hperm. subst inrange. rewrite list_elem_of_filter. tauto.
  - intros Hempty.
    assert (Hnil : inrange = []).
    { subst inrange. clear Hperm.
      induction (items db) as [|x l IH]; [reflexivity|].
      rewrite filter_cons_False by lia. exact IH. }
    now rewrite Hnil.
Qed.

Lemma FindByPriceRange_sorted_witness :
  faults shelf = [] /\
  exists rows,
    ItemRepository.FindByPriceRange 50 150 shelf = (Ok rows, shelf)
    /\ StronglySorted price_asc rows
    /\ rows ≡ₚ filter (fun i => 50 <= Price i /\ Price i <= 150) (items shelf)
    /\ (forall i, i ∈ rows <-> i ∈ items shelf /\ 50 <= Price i /\ Price i <= 150)
    /\ (150 < 50 -> rows = []).
Proof.
  split; [reflexivity|].
  exact (FindByPriceRange_sorted shelf 50 150 eq_refl).
Defined.

(** ** The memory repository *)

(** X15.  When the slice of the memory repository holds the ids 1, 2,
    ... in order, [Create] gives the new item the next number, an id no
    stored item has, appends it, and the slice is numbered in order
    again; the other fields of the item are stored as given and [FindAll]
    returns the whole slice. *)
Theorem memory_Create_numbers items newItem :
  numbered items ->
  Z.of_nat (length items) < GoInt.max_int ->
  exists created,
    ItemMemoryRepository.Create newItem items = (Ok created, items ++ [created])
    /\ created = set_ID (Z.of_nat (length items) + 1) newItem
    /\ (ID created ∉ (ID <$> items))
    /\ numbered (items ++ [created])
    /\ ItemMemoryRepository.FindAll (items ++ [created])
       = (Ok (items ++ [created]), items ++ [created]).
Proof.
  intros Hnum Hlen.
  assert (Hmax : GoInt.max_int = 9223372036854775807) by reflexivity.
  unfold ItemMemoryRepository.Create.
  rewrite int_wrap_small
    by (unfold GoInt.is_int, GoInt.min_int, GoInt.bits; cbn; lia).
  assert (Hw : GoInt.uint_wrap (Z.of_nat (length items) + 1)
               = Z.of_nat (length items) + 1).
  { unfold GoInt.uint_wrap, GoInt.uint_mod, GoInt.bits.
    apply Z.mod_small. lia. }
  rewrite Hw. eexists. split; [reflexivity|]. split; [reflexivity|].
  cbn [ID set_ID]. repeat split.
  - rewrite Hnum. intros Hin. apply list_elem_of_fmap in Hin as (k & Hk & Hin).
    apply elem_of_seq in Hin. lia.
  - unfold numbered in *. rewrite fmap_app, length_app, Hnum. cbn [length fmap list_fmap ID set_ID].
    rewrite Nat.add_1_r, seq_S, fmap_app. cbn. f_equal. f_equal. lia.
Qed.

Lemma memory_Create_numbers_witness :
  numbered (items shelf) /\ Z.of_nat (length (items shelf)) < GoInt.max_int /\
  exists created,
    ItemMemoryRepository.Create itemA (items shelf)
    = (Ok created, items shelf ++ [created])
    /\ created = set_ID (Z.of_nat (length (items shelf)) + 1) itemA
    /\ (ID created ∉ (ID <$> items shelf))
    /\ numbered (items shelf ++ [created])
    /\ ItemMemoryRepository.FindAll (items shelf ++ [created])
       = (Ok (items shelf ++ [created]), items shelf ++ [created]).
Proof.
  assert (H1 : numbered (items shelf)) by reflexivity.
  assert (H2 : Z.of_nat (length (items shelf)) < GoInt.max_int) by reflexivity.
  split; [exact H1|]. split; [exact H2|].
  exact (memory_Create_numbers (items shelf) itemA H1 H2).
Defined.

(** ** An item from its creation to its sale *)

(** X16.  On a storage that does not fail and well-typed tables, an item
    created from a valid input is purchasable ([IsPurchasable]); a buyer
    whose balance covers the tax-inclusive price, 11/10 of the price of
    the input with the fraction dropped, buys it with [PurchaseItem] and
    is debited exactly that amount; afterwards the stored item is no
    longer purchasable. *)
Theorem Create_then_PurchaseItem db input userId u :
  faults db = [] ->
  well_typed db ->
  valid_CreateItemInput input ->
  find_item (item_seq db + 1) (items db) = None ->
  users db !! userId = Some u ->
  11 * ciPrice input / 10 <= Balance u ->
  exists item db1 db2 sold,
    run (ItemService.Create input) db = (Ok item, db1)
    /\ IsPurchasable item = true
    /\ run (ItemService.PurchaseItem (ID item) userId) db1 = (Ok tt, db2)
    /\ users db2 !! userId
       = Some (set_Balance (Balance u - 11 * ciPrice input / 10) u)
    /\ find_item (ID item) (items db2) = Some sold
    /\ IsPurchasable sold = false.
Proof.
  intros Hh [_ Hus] [_ Hprice] Hfresh Hu Hle.
  destruct (Hus _ _ Hu) as [HUID Hbal].
  pose proof (calculatePrice_floor (ciPrice input) ltac:(lia)) as Hcp.
  assert (Hpos : 1 <= 11 * ciPrice input / 10)
    by (apply Z.div_le_lower_bound; lia).
  set (item := mkItem (item_seq db + 1) (ciName input)
                 (ItemService.calculatePrice (ciPrice input))
                 (ciDescription input) false 0 0).
  set (db1 := set_items (items db ++ [item]) (set_item_seq (item_seq db + 1) db)).
  assert (Hcreate : run (ItemService.Create input) db = (Ok item, db1)).
  { unfold ItemService.Create. cbn [run]. unfold ItemRepository.Create.
    rewrite statement_healthy by assumption.
    cbn [ID Z.eqb set_ID set_item_seq items]. now rewrite Hfresh. }
  assert (Hitem : find_item (ID item) (items db1) = Some item).
  { subst db1 item. cbn [items set_items set_item_seq ID].
    rewrite find_item_app, Hfresh. unfold find_item. cbn [find ID].
    now rewrite Z.eqb_refl. }
  assert (Hbuy := PurchaseItem_success db1 (ID item) userId item u Hh Hitem
                    eq_refl Hu HUID).
  cbn [Price item] in Hbuy. rewrite Hcp in Hbuy. specialize (Hbuy Hle).
  assert (Hw : GoInt.uint_wrap (Balance u - 11 * ciPrice input / 10)
               = Balance u - 11 * ciPrice input / 10).
  { unfold GoInt.uint_wrap, GoInt.is_uint in *. apply Z.mod_small. lia. }
  rewrite Hw in Hbuy.
  exists item. do 3 eexists. split; [exact Hcreate|]. split.
  - unfold IsPurchasable. subst item. cbn [SoldOut Price negb andb].
    rewrite Hcp. apply Z.ltb_lt. lia.
  - split; [exact Hbuy|]. cbn [users items set_users set_items].
    split; [now rewrite lookup_insert_eq|]. split.
    + fold (items db1). rewrite find_item_write, Hitem. cbn [fmap option_fmap option_map].
      rewrite write_columns_same by reflexivity. reflexivity.
    + reflexivity.
Qed.

Lemma Create_then_PurchaseItem_witness :
  faults shop = [] /\ well_typed shop /\ valid_CreateItemInput (mkCreateItemInput "AB" 100 "") /\
  find_item (item_seq shop + 1) (items shop) = None /\
  users shop !! 1 = Some alice /\
  11 * ciPrice (mkCreateItemInput "AB" 100 "") / 10 <= Balance alice /\
  exists item db1 db2 sold,
    run (ItemService.Create (mkCreateItemInput "AB" 100 "")) shop = (Ok item, db1)
    /\ IsPurchasable item = true
    /\ run (ItemService.PurchaseItem (ID item) 1) db1 = (Ok tt, db2)
    /\ users db2 !! 1
       = Some (set_Balance
                 (Balance alice - 11 * ciPrice (mkCreateItemInput "AB" 100 "") / 10)
                 alice)
    /\ find_item (ID item) (items db2) = Some sold
    /\ IsPurchasable sold = false.
Proof.
  assert (Hv : valid_CreateItemInput (mkCreateItemInput "AB" 100 ""))
    by (split; cbn; lia).
  assert (Hb : 11 * ciPrice (mkCreateItemInput "AB" 100 "") / 10 <= Balance alice)
    by (vm_compute; discriminate).
  split; [reflexivity|]. split; [exact shop_well_typed|]. split; [exact Hv|].
  split; [reflexivity|]. split; [reflexivity|]. split; [exact Hb|].
  exact (Create_then_PurchaseItem shop _ 1 alice eq_refl shop_well_typed Hv
           eq_refl eq_refl Hb).
Defined.

(** ** Pages *)




(** X18.  [FindWithPagination] drops the error of its [Count]: when the
    storage fails on the count and not on the query of the rows, the call
    succeeds and returns the rows of the page together with a total of
    0, whatever the number of rows stored. *)
Theorem FindWithPagination_count_fails db page pageSize :
  faults db = [true] ->
  1 <= page ->
  1 <= pageSize ->
  (page - 1) * pageSize <= GoInt.max_int ->
  ItemRepository.FindWithPagination page pageSize db
  = (Ok (take (Z.to_nat pageSize)
              (drop (Z.to_nat ((page - 1) * pageSize)) (items db)), 0),
     set_faults [] db).
Proof.
  intros Hf Hpage Hsize Hfit.
  assert (Hmax : GoInt.max_int = 9223372036854775807) by reflexivity.
  assert (Hmin : GoInt.min_int = -9223372036854775808) by reflexivity.
  destruct db as [its sq us fl]. cbn [faults items] in *. subst fl.
  unfold ItemRepository.FindWithPagination. tables.
  rewrite (int_wrap_small (page - 1)) by (unfold GoInt.is_int; nia).
  rewrite int_wrap_small by (unfold GoInt.is_int; nia).
  unfold gorm_Limit, gorm_Offset.
  destruct (Z.leb_spec 0 pageSize); [|lia].
  destruct (Z.ltb_spec 0 ((page - 1) * pageSize)) as [|H0]; [reflexivity|].
  replace ((page - 1) * pageSize) with 0 by nia. reflexivity.
Qed.

Lemma FindWithPagination_count_fails_witness :
  faults (set_faults [true] shelf) = [true] /\ 1 <= 3 /\ 1 <= 10 /\
  (3 - 1) * 10 <= GoInt.max_int /\
  ItemRepository.FindWithPagination 3 10 (set_faults [true] shelf)
  = (Ok (take (Z.to_nat 10)
              (drop (Z.to_nat ((3 - 1) * 10)) (items (set_faults [true] shelf))), 0),
     set_faults [] (set_faults [true] shelf)).
Proof.
  assert (H1 : 1 <= 3) by lia. assert (H2 : 1 <= 10) by lia.
  assert (H3 : (3 - 1) * 10 <= GoInt.max_int) by (vm_compute; discriminate).
  split; [reflexivity|]. split; [exact H1|]. split; [exact H2|].
  split; [exact H3|].
  exact (FindWithPagination_count_fails (set_faults [true] shelf) 3 10
           eq_refl H1 H2 H3).
Defined.

(** ** The price of a sold item *)

Lemma call_healthy db :
  faults db = [] ->
  (forall id, faults (ItemRepository.FindById id db).2 = [])
  /\ (forall x, faults (ItemRepository.Create x db).2 = [])
  /\ (forall x, faults (ItemRepository.Update x db).2 = [])
  /\ faults (ItemRepository.FindAll db).2 = []
  /\ (forall id, faults (UserRepository.FindById id db).2 = [])
  /\ (forall x, faults (UserRepository.Update x db).2 = []).
Proof.
  intros Hh. repeat split; intros.
  - rewrite FindById_healthy by assumption. now destruct (find_item _ _).
  - unfold ItemRepository.Create. rewrite statement_healthy by assumption.
    destruct (ID x =? 0); cbn [items set_item_seq];
      match goal with
      | |- context [find_item ?a ?b] => destruct (find_item a b)
      end; assumption.
  - unfold ItemRepository.Update. rewrite BeforeUpdate_healthy by assumption.
    cbn zeta. destruct (SoldOut _ && _); [assumption|].
    rewrite statement_healthy by assumption. now destruct (_ =? 0).
  - now rewrite FindAll_healthy.
  - rewrite UserFindById_healthy by assumption. now destruct (users db !! _).
  - unfold UserRepository.Update. rewrite statement_healthy by assumption.
    now destruct (users db !! _).
Qed.

(** A storage that does not fail still does not fail after a method. *)
Lemma run_healthy {R} (p : prog R) db :
  faults db = [] -> faults (run p db).2 = [].
Proof.
  revert db.
  induction p as [r|e| |k IH|itemId k IH|newItem k IH|updateItem k IH
                 |userId k IH|updateUser k IH]; intros db Hh; cbn [run];
    try assumption.
  all: destruct (call_healthy db Hh) as (H1 & H2 & H3 & H4 & H5 & H6).
  all: match goal with
       | |- context [and_then ?c _] =>
           assert (Hc : faults c.2 = []) by auto;
           destruct c as [[a|e|] db']; cbn [and_then snd] in *; auto
       end.
Qed.

Lemma perform_healthy db o : faults db = [] -> faults (perform db o) = [].
Proof. destruct o; cbn [perform]; apply run_healthy. Qed.

(** An item with this id is stored sold at this price. *)
Lemma perform_keeps_sold_price db o id price :
  faults db = [] ->
  (exists i, find_item id (items db) = Some i /\ SoldOut i = true /\ Price i = price) ->
  exists i, find_item id (items (perform db o)) = Some i
            /\ SoldOut i = true /\ Price i = price.
Proof.
  intros Hh (i & Hi & Hs & Hp).
  destruct o as [input|itemId input|itemId userId]; cbn [perform].
  - destruct (Create_run_effect db input) as [_ [added ->]].
    exists i. now rewrite find_item_app, Hi.
  - destruct (find_item itemId (items db)) as [t|] eqn:Ht.
    + rewrite (Update_run db itemId input t Hh Ht).
      destruct (SoldOut t && negb (Price t =? Price (ItemService.apply_fields input t)))
        eqn:Hhook; cbn [snd]; [now exists i|].
      cbn [items set_items].
      destruct (Z.eq_dec id itemId) as [->|Hne].
      * rewrite Hi in Ht. injection Ht as <-.
        rewrite (Update_stored db itemId input i Hi).
        destruct (apply_fields_frame input i) as (_ & HS & _).
        eexists. split; [reflexivity|]. split; [congruence|].
        rewrite Hs in Hhook. cbn [andb] in Hhook.
        apply negb_false_iff, Z.eqb_eq in Hhook. congruence.
      * rewrite find_item_write, Hi. cbn. rewrite write_columns_other.
        { now exists i. }
        destruct (apply_fields_frame input t) as (HID & _).
        apply find_item_ID in Hi, Ht. lia.
    + unfold ItemService.Update. cbn [run].
      rewrite FindById_healthy, Ht by assumption. now exists i.
  - assert (Hw : forall t, find_item itemId (items db) = Some t ->
              exists i', find_item id
                           (map (ItemRepository.write_columns (set_SoldOut true t))
                                (items db)) = Some i'
                         /\ SoldOut i' = true /\ Price i' = price).
    { intros t Ht. rewrite find_item_write, Hi. cbn.
      unfold ItemRepository.write_columns.
      destruct (Z.eqb_spec (ID i) (ID (set_SoldOut true t))) as [Heq|Hne].
      - eexists. split; [reflexivity|]. cbn. split; [reflexivity|].
        cbn in Heq. apply find_item_ID in Hi as Hid, Ht as Htid.
        rewrite <- Htid, <- Heq, Hid, Hi in Ht. congruence.
      - now exists i. }
    destruct (PurchaseItem_effect db itemId userId)
      as [(_ & _ & [-> | (t & Ht & ->)]) | (_ & t & u & Ht & _ & _ & _ & -> & _)];
      eauto.
Qed.

(** X19.  On a storage that does not fail, over any sequence of
    [Create], [Update] and [PurchaseItem] an item that is stored sold
    stays stored, sold and at the same price: once an item is sold no
    update changes its price. *)
Theorem sold_price_never_changes ops db id i :
  faults db = [] ->
  find_item id (items db) = Some i ->
  SoldOut i = true ->
  exists i', find_item id (items (perform_all ops db)) = Some i'
             /\ SoldOut i' = true /\ Price i' = Price i.
Proof.
  intros Hh Hi Hs.
  assert (H : exists i', find_item id (items db) = Some i'
                         /\ SoldOut i' = true /\ Price i' = Price i)
    by (now exists i).
  clear Hi Hs. unfold perform_all. revert db Hh H.
  induction ops as [|o ops IH]; intros db Hh H; cbn [foldl]; [exact H|].
  apply IH; [now apply perform_healthy | now apply perform_keeps_sold_price].
Qed.

Lemma sold_price_never_changes_witness :
  faults (table soldA) = [] /\ find_item 1 (items (table soldA)) = Some soldA /\
  SoldOut soldA = true /\
  exists i',
    find_item 1 (items (perform_all [updateItem 1 (price_only 200);
                                     updateItem 1 (description_only "x");
                                     purchaseItem 1 1] (table soldA))) = Some i'
    /\ SoldOut i' = true /\ Price i' = Price soldA.
Proof.
  split; [reflexivity|]. split; [reflexivity|]. split; [reflexivity|].
  exact (sold_price_never_changes _ (table soldA) 1 soldA eq_refl eq_refl eq_refl).
Defined.

(** X20.  [Update] of the service makes the price of its input
    tax-inclusive each time: on a storage that does not fail, sending an
    item's stored price back raises the stored price of an unsold item to
    11/10 of it, and is refused for a sold item as a price change, for
    every stored price from 10 up. *)
Theorem Update_with_stored_price db itemId i :
  faults db = [] ->
  find_item itemId (items db) = Some i ->
  10 <= Price i < 2 ^ 32 ->
  if SoldOut i
  then fails_with (run (ItemService.Update itemId (price_only (Price i))) db)
                  (BusinessRuleViolation ImmutablePriceAfterSale) db
  else exists item db',
         run (ItemService.Update itemId (price_only (Price i))) db = (Ok item, db')
         /\ find_item itemId (items db') = Some item
         /\ Price item = 11 * Price i / 10
         /\ Price i < Price item.
Proof.
  intros Hh Hi Hp.
  rewrite (Update_run db itemId _ i Hh Hi).
  assert (Hnew : Price (ItemService.apply_fields (price_only (Price i)) i)
                 = 11 * Price i / 10).
  { cbn. apply calculatePrice_floor. lia. }
  assert (Hgt : Price i < 11 * Price i / 10).
  { apply Z.lt_le_trans with (Price i + 1); [lia|].
    apply Z.div_le_lower_bound; lia. }
  rewrite Hnew.
  destruct (Z.eqb_spec (Price i) (11 * Price i / 10)) as [Heq|_]; [lia|].
  destruct (SoldOut i); cbn [andb negb].
  - now exists ErrSoldPriceChange.
  - do 2 eexists. split; [reflexivity|]. cbn [items set_items].
    split; [now apply Update_stored|]. split; [exact Hnew | lia].
Qed.

Lemma Update_with_stored_price_witness :
  faults (table itemA) = [] /\ find_item 1 (items (table itemA)) = Some itemA /\
  10 <= Price itemA < 2 ^ 32 /\
  exists item db',
    run (ItemService.Update 1 (price_only (Price itemA))) (table itemA)
    = (Ok item, db')
    /\ find_item 1 (items db') = Some item
    /\ Price item = 11 * Price itemA / 10
    /\ Price itemA < Price item.
Proof.
  assert (H : 10 <= Price itemA < 2 ^ 32) by (cbn; lia).
  split; [reflexivity|]. split; [reflexivity|]. split; [exact H|].
  exact (Update_with_stored_price (table itemA) 1 itemA eq_refl eq_refl H).
Defined.

(** ** An update that meets a purchase *)

(** X21.  A request that updates an item without a price and a request
    that buys the same item run at the same time; the update loads the
    item, the purchase then runs to its end, and the update writes the
    item back.  Both requests succeed, the buyer is debited the price,
    and the item is stored not sold: the update has written back the
    sold-out flag it had loaded. *)
Theorem Update_overwrites_concurrent_sale db itemId userId input i u :
  faults db = [] ->
  well_typed db ->
  find_item itemId (items db) = Some i ->
  SoldOut i = false ->
  users db !! userId = Some u ->
  Price i <= Balance u ->
  uiPrice input = None ->
  exists db',
    sched [0; 1; 1; 1; 1; 0]%nat
      ([discard (ItemService.Update itemId input);
        ItemService.PurchaseItem itemId userId], db)
    = ([Return tt; Return tt], db')
    /\ users db' !! userId = Some (set_Balance (Balance u - Price i) u)
    /\ find_item itemId (items db') = Some (ItemService.apply_fields input i)
    /\ SoldOut (ItemService.apply_fields input i) = false.
Proof.
  intros Hh [Hp Hus] Hi Hsold Hu Hle Hnoprice.
  pose proof (find_item_ID _ _ _ Hi) as HID.
  destruct (Hus _ _ Hu) as [HUID Hbal].
  pose proof (found_price _ _ _ Hp Hi) as Hprice.
  destruct (apply_fields_frame input i) as (HIDa & HSa & HUa & HCa).
  assert (HPa : Price (ItemService.apply_fields input i) = Price i).
  { destruct (apply_fields_set input i) as (_ & -> & _). now rewrite Hnoprice. }
  assert (Hw : GoInt.uint_wrap (Balance u - Price i) = Balance u - Price i).
  { unfold GoInt.uint_wrap, GoInt.is_uint in *. apply Z.mod_small. lia. }
  unfold sched, ItemService.PurchaseItem, ItemService.Update.
  cbn [foldl discard].
  (* the update loads the item *)
  rewrite fire_first. cbn [step].
  rewrite FindById_healthy, Hi by assumption. cbn [resume fst snd].
  (* the purchase runs to its end *)
  rewrite fire_second. cbn [step].
  rewrite FindById_healthy, Hi by assumption. cbn [resume fst snd]. rewrite Hsold.
  rewrite fire_second. cbn [step].
  rewrite UserFindById_healthy, Hu by assumption. cbn [resume fst snd].
  destruct (Z.ltb_spec (Balance u) (Price i)); [lia|].
  rewrite fire_second. cbn [step].
  rewrite (Update_healthy db Hh (set_SoldOut true i) i);
    [| cbn; now rewrite HID | cbn; now rewrite Hsold].
  cbn [resume fst snd].
  set (db1 := set_items _ db).
  assert (Hi1 : find_item itemId (items db1) = Some (set_SoldOut true i)).
  { subst db1. cbn [items set_items]. rewrite find_item_write, Hi. cbn.
    now rewrite write_columns_same by (cbn; auto). }
  cbn [Price set_SoldOut]. rewrite Hw.
  rewrite fire_second. cbn [step].
  rewrite (UserUpdate_healthy db1 Hh _ u) by (cbn; now rewrite HUID).
  cbn [resume fst snd UID set_Balance].
  set (db2 := set_users _ db1).
  (* the update writes the item back *)
  rewrite fire_first. cbn [step].
  rewrite (Update_healthy db2 Hh (ItemService.apply_fields input i)
                          (set_SoldOut true i)).
  2: { subst db2. cbn [items set_users]. now rewrite HIDa, HID. }
  2: { cbn [SoldOut Price set_SoldOut]. rewrite HPa, Z.eqb_refl. reflexivity. }
  cbn [resume fst snd discard].
  eexists. split; [reflexivity|].
  subst db2. cbn [users items set_users set_items]. rewrite HUID.
  split; [now rewrite lookup_insert_eq|]. split.
  - fold (items db1). rewrite find_item_write, Hi1. cbn.
    now rewrite write_columns_same by (cbn; congruence).
  - congruence.
Qed.

Lemma Update_overwrites_concurrent_sale_witness :
  faults shop = [] /\ well_typed shop /\
  find_item 1 (items shop) = Some item500 /\ SoldOut item500 = false /\
  users shop !! 1 = Some alice /\ Price item500 <= Balance alice /\
  uiPrice (description_only "x") = None /\
  exists db',
    sched [0; 1; 1; 1; 1; 0]%nat
      ([discard (ItemService.Update 1 (description_only "x"));
        ItemService.PurchaseItem 1 1], shop)
    = ([Return tt; Return tt], db')
    /\ users db' !! 1 = Some (set_Balance (Balance alice - Price item500) alice)
    /\ find_item 1 (items db')
       = Some (ItemService.apply_fields (description_only "x") item500)
    /\ SoldOut (ItemService.apply_fields (description_only "x") item500) = false.
Proof.
  assert (H : Price item500 <= Balance alice) by (cbn; lia).
  split; [reflexivity|]. split; [exact shop_well_typed|].
  split; [reflexivity|]. split; [reflexivity|]. split; [reflexivity|].
  split; [exact H|]. split; [reflexivity|].
  exact (Update_overwrites_concurrent_sale shop 1 1 (description_only "x")
           item500 alice eq_refl shop_well_typed eq_refl eq_refl eq_refl H
           eq_refl).
Defined.
